(** * Job Portal API: a shallow embedding of [main.py] and [schemas.py]

    The request handlers of [main.py] are embedded as functions in a small
    state-and-exception monad over the process-wide storage handle [db].
    Documents are Python dictionaries (finite maps from field names to
    values); a query filter is a dictionary from field names (or ["$or"])
    to conditions, evaluated with the matching rules of the document
    store. *)

From Stdlib Require Import Ascii String DecimalString.
From stdpp Require Import gmap strings list fin_maps.

Open Scope string_scope.
Open Scope Z_scope.

(** ** Text *)

(** ASCII case folding, as the ["i"] option and [str.lower] do on ASCII. *)
Definition ascii_lower (c : ascii) : ascii :=
  let n := N_of_ascii c in
  if ((65 <=? n) && (n <=? 90))%N then ascii_of_N (n + 32) else c.

Fixpoint lower (s : string) : string :=
  match s with
  | EmptyString => EmptyString
  | String c r => String (ascii_lower c) (lower r)
  end.

Fixpoint starts_with (p s : string) : bool :=
  match p, s with
  | EmptyString, _ => true
  | String a p', String b s' => Ascii.eqb a b && starts_with p' s'
  | String _ _, EmptyString => false
  end.

(** [contains p s]: Python's [p in s]. *)
Fixpoint contains (p s : string) : bool :=
  starts_with p s ||
  match s with
  | EmptyString => false
  | String _ s' => contains p s'
  end.

Fixpoint string_forallb (f : ascii -> bool) (s : string) : bool :=
  match s with
  | EmptyString => true
  | String c r => f c && string_forallb f r
  end.

(** The characters a regular expression reads as operators. *)
Definition is_metachar (c : ascii) : bool :=
  existsb (Ascii.eqb c)
    ["\"; "^"; "$"; "."; "|"; "?"; "*"; "+"; "("; ")"; "["; "]"; "{"; "}"]%char.

Definition no_metachar (p : string) : bool :=
  string_forallb (fun c => negb (is_metachar c)) p.

(** Text of 7-bit characters only. *)
Definition is_ascii (s : string) : bool :=
  string_forallb (fun c => (N_of_ascii c <? 128)%N) s.

(** A case folding: the map on texts under which a matcher ignores letter
    case. On ASCII text it is [lower]; what it does to other text (accented
    and non-Latin letters in their UTF-8 form) is the matcher's own. *)
Definition case_folding (fold : string -> string) : Prop :=
  forall s : string, is_ascii s = true -> fold s = lower s.

(** [s] contains [p] as a substring, letter case ignored as [fold] does. *)
Definition ci_substring (fold : string -> string) (p s : string) : Prop :=
  exists pre post : string, fold s = pre ++ fold p ++ post.

(** A folding that, beyond ASCII, also takes the two-byte capital letters of
    Latin-1 (U+00C0 to U+00DE, but for the multiplication sign) to their
    small forms. *)
Fixpoint fold_latin (s : string) : string :=
  match s with
  | EmptyString => EmptyString
  | String c r =>
      if Ascii.eqb c (ascii_of_N 195)
      then match r with
           | EmptyString => String c EmptyString
           | String c2 r' =>
               let n := N_of_ascii c2 in
               if ((128 <=? n) && (n <=? 158) && negb (n =? 151))%N
               then String c (String (ascii_of_N (n + 32)) (fold_latin r'))
               else String c (fold_latin r)
           end
      else String (ascii_lower c) (fold_latin r)
  end.

Definition is_hex_digit (c : ascii) : bool :=
  let n := N_of_ascii c in
  (((48 <=? n) && (n <=? 57)) || ((65 <=? n) && (n <=? 70))
   || ((97 <=? n) && (n <=? 102)))%N.

Definition hex_char (n : N) : ascii :=
  if (n <? 10)%N then ascii_of_N (48 + n) else ascii_of_N (87 + n).

Fixpoint hex_of (digits : nat) (n : N) : string :=
  match digits with
  | O => EmptyString
  | S k => hex_of k (n / 16)%N ++ String (hex_char (n mod 16)%N) EmptyString
  end.

Definition nat_str (n : nat) : string := NilZero.string_of_uint (Nat.to_uint n).
Definition int_str (z : Z) : string := NilZero.string_of_int (Z.to_int z).

Fixpoint zeros (n : nat) : string :=
  match n with
  | O => EmptyString
  | S k => String "0"%char (zeros k)
  end.

(** ["%0<w>d"] on a natural number. *)
Definition zero_pad (w n : nat) : string :=
  let s := nat_str n in zeros (w - String.length s) ++ s.

(** ** Values and documents *)

(** A naive [datetime.datetime]. *)
Record datetime := {
  year : nat; month : nat; day : nat;
  hour : nat; minute : nat; second : nat; microsecond : nat
}.

(** [datetime.isoformat(sep)]. *)
Definition isoformat_sep (sep : string) (t : datetime) : string :=
  zero_pad 4 (year t) ++ "-" ++ zero_pad 2 (month t) ++ "-" ++ zero_pad 2 (day t)
  ++ sep ++ zero_pad 2 (hour t) ++ ":" ++ zero_pad 2 (minute t) ++ ":"
  ++ zero_pad 2 (second t)
  ++ (if Nat.eqb (microsecond t) 0 then EmptyString else "." ++ zero_pad 6 (microsecond t)).

Definition isoformat (t : datetime) : string := isoformat_sep "T" t.

(** The values a stored document holds: the field types of [schemas.py]
    ([str], [int], [bool], [datetime], [List[str]], [None]) and the
    identifier type of the store ([bson.ObjectId], kept by its 24 lower-case
    hexadecimal digits). *)
Inductive value :=
| VNone
| VBool (b : bool)
| VInt (z : Z)
| VStr (s : string)
| VDate (t : datetime)
| VOid (hex : string)
| VStrs (l : list string).

#[global] Instance datetime_eq_dec : EqDecision datetime.
Proof. solve_decision. Defined.

#[global] Instance value_eq_dec : EqDecision value.
Proof. solve_decision. Defined.

Definition value_eqb (a b : value) : bool := bool_decide (a = b).

(** A document: a Python [dict] keyed by field name. *)
Abbreviation doc := (gmap string value).

(** [repr] of a [str]: single quotes unless the text has a single quote and
    no double quote; backslash, the chosen quote and control characters are
    escaped. *)
Definition repr_char (q : ascii) (c : ascii) : string :=
  let n := N_of_ascii c in
  if Ascii.eqb c "\"%char then "\\"
  else if Ascii.eqb c q then String "\"%char (String q EmptyString)
  else if (n =? 10)%N then "\n"
  else if (n =? 13)%N then "\r"
  else if (n =? 9)%N then "\t"
  else if ((n <? 32) || (n =? 127))%N then "\x" ++ hex_of 2 n
  else String c EmptyString.

Fixpoint repr_body (q : ascii) (s : string) : string :=
  match s with
  | EmptyString => EmptyString
  | String c r => repr_char q c ++ repr_body q r
  end.

Definition dquote : ascii := ascii_of_N 34.

Definition py_repr_str (s : string) : string :=
  let q := if contains "'" s && negb (contains (String dquote EmptyString) s)
           then dquote else "'"%char in
  String q (repr_body q s) ++ String q EmptyString.

(** Python's [str(v)]. *)
Definition py_str (v : value) : string :=
  match v with
  | VNone => "None"
  | VBool true => "True"
  | VBool false => "False"
  | VInt z => int_str z
  | VStr s => s
  | VDate t => isoformat_sep " " t
  | VOid h => h
  | VStrs l => "[" ++ String.concat ", " (map py_repr_str l) ++ "]"
  end.

(** Python truthiness ([if v:], [not v]). *)
Definition truthy (v : value) : bool :=
  match v with
  | VNone => false
  | VBool b => b
  | VInt z => negb (z =? 0)
  | VStr s => negb (String.eqb s EmptyString)
  | VDate _ => true
  | VOid _ => true
  | VStrs l => negb (Nat.eqb (List.length l) 0)
  end.

(** Truthiness of an [Optional[str]] query parameter. *)
Definition given (o : option string) : bool :=
  match o with
  | Some s => negb (String.eqb s EmptyString)
  | None => false
  end.

(** ** Query filters and their evaluation by the store *)

(** The condition a filter puts on one field: a literal (equality), a
    [{"$regex": p, "$options": o}] or a [{"$in": [...]}]. *)
Inductive cond :=
| CEq (v : value)
| CRegex (pattern options : string)
| CIn (vs : list value).

(** The entry under one key of a filter dictionary: a field condition, or
    (under ["$or"]) a list of alternative sub-filters. *)
Inductive fexpr :=
| FCond (c : cond)
| FOr (alts : list (gmap string cond)).

Abbreviation filter := (gmap string fexpr).

(** The pattern matcher of the storage server. [rx_compiles p o] tells
    whether the server accepts [p] with options [o]; [rx_search p o s]
    whether [p] matches somewhere in [s] (an unanchored search). *)
Record regex_engine := {
  rx_compiles : string -> string -> bool;
  rx_search : string -> string -> string -> bool
}.

(** What the handlers rely on: a pattern without operator characters is
    accepted, and under option ["i"] the search is a scan of the folded text
    for the folded pattern, [fold] being the matcher's case folding. *)
Definition literal_engine (fold : string -> string) (e : regex_engine) : Prop :=
  forall p s : string, no_metachar p = true ->
    rx_compiles e p "i" = true /\
    rx_search e p "i" s = contains (fold p) (fold s).

(** Equality against a field: the field equals the value, or is an array
    with an element equal to it; a missing field equals only [None]. *)
Definition eq_holds (v : value) (fv : option value) : bool :=
  match fv with
  | None => value_eqb VNone v
  | Some (VStrs l) => value_eqb (VStrs l) v || existsb (fun e => value_eqb (VStr e) v) l
  | Some x => value_eqb x v
  end.

Definition cond_holds (e : regex_engine) (c : cond) (fv : option value) : bool :=
  match c with
  | CEq v => eq_holds v fv
  | CIn vs => existsb (fun v => eq_holds v fv) vs
  | CRegex p o =>
      match fv with
      | Some (VStr s) => rx_search e p o s
      | Some (VStrs l) => existsb (rx_search e p o) l
      | _ => false
      end
  end.

(** A flat filter holds when each of its entries does. *)
Definition sub_matches (e : regex_engine) (f : gmap string cond) (d : doc) : bool :=
  forallb (fun kc => cond_holds e (snd kc) (d !! fst kc)) (map_to_list f).

Definition fexpr_holds (e : regex_engine) (k : string) (x : fexpr) (d : doc) : bool :=
  match x with
  | FCond c => cond_holds e c (d !! k)
  | FOr alts => existsb (fun f => sub_matches e f d) alts
  end.

Definition matches (e : regex_engine) (f : filter) (d : doc) : bool :=
  forallb (fun kx => fexpr_holds e (fst kx) (snd kx) d) (map_to_list f).

Definition cond_ok (e : regex_engine) (c : cond) : bool :=
  match c with
  | CRegex p o => rx_compiles e p o
  | _ => true
  end.

Definition fexpr_ok (e : regex_engine) (x : fexpr) : bool :=
  match x with
  | FCond c => cond_ok e c
  | FOr alts =>
      forallb (fun f => forallb (fun kc => cond_ok e (snd kc)) (map_to_list f)) alts
  end.

(** The server accepts a filter when it accepts each of its patterns. *)
Definition filter_ok (e : regex_engine) (f : filter) : bool :=
  forallb (fun kx => fexpr_ok e (snd kx)) (map_to_list f).

(** ** Exceptions and the handler monad *)

Inductive exn :=
| HTTPException (status_code : Z) (detail : string)
| InvalidId (oid : string)
| KeyError (key : string)
| StorageUnavailable
| OperationFailure (msg : string).

Inductive result (A : Type) :=
| Return (a : A)
| Raise (e : exn).
Arguments Return {A} a.
Arguments Raise {A} e.

(** The storage handle behind [db]. *)
Record Database := {
  collections : gmap string (list doc);
  next_id : N;
  db_name : option string;
  listing_error : option string;
  engine : regex_engine
}.

(** A handler runs against the module-level [db] ([None] when storage is not
    configured) and either returns or raises. *)
Definition M (A : Type) : Type := option Database -> result A * option Database.

Definition ret {A} (a : A) : M A := fun st => (Return a, st).
Definition raise {A} (e : exn) : M A := fun st => (Raise e, st).
Definition bind {A B} (m : M A) (k : A -> M B) : M B :=
  fun st => match m st with
            | (Return a, st') => k a st'
            | (Raise e, st') => (Raise e, st')
            end.
(** [try: m except Exception: h]. *)
Definition try_except {A} (m : M A) (h : exn -> M A) : M A :=
  fun st => match m st with
            | (Return a, st') => (Return a, st')
            | (Raise e, st') => h e st'
            end.
Definition lift {A} (r : result A) : M A := fun st => (r, st).

Notation "'let*' x ':=' m 'in' k" := (bind m (fun x => k))
  (at level 10, x name, m at level 100, k at level 200).

(** The status line the framework answers with. *)
Definition status_of {A} (r : result A) : Z :=
  match r with
  | Return _ => 200
  | Raise (HTTPException s _) => s
  | Raise _ => 500
  end.

(** The module-level name [db]. *)
Definition db : M (option Database) := fun st => (Return st, st).

Definition collection (d : Database) (name : string) : list doc :=
  default [] (collections d !! name).

(** [bson.ObjectId(s)] for a [str]: 24 hexadecimal digits, else [InvalidId].
    Text of 24 characters in which [bytes.fromhex] would skip blanks is taken
    as invalid: it is the text of no stored identifier, and the handlers
    answer it as they answer an invalid one. *)
Definition ObjectId (s : string) : result string :=
  if Nat.eqb (String.length s) 24 && string_forallb is_hex_digit s
  then Return (lower s) else Raise (InvalidId s).

(** [db[name].find_one(f)]: the first stored document the filter matches. *)
Definition find_one (name : string) (f : filter) : M (option doc) :=
  fun st => match st with
            | None => (Raise StorageUnavailable, st)
            | Some d =>
                if filter_ok (engine d) f
                then (Return (List.find (matches (engine d) f) (collection d name)), st)
                else (Raise (OperationFailure "bad pattern"), st)
            end.

(** [db.list_collection_names()]. *)
Definition list_collection_names (d : Database) : result (list string) :=
  match listing_error d with
  | Some msg => Raise (OperationFailure msg)
  | None => Return (map fst (map_to_list (collections d)))
  end.

(** Modelled from the spec: [database.py] ([db], [create_document],
    [get_documents]) is not among the sources. [find(collection, predicate,
    limit)] returns up to [limit] matching documents in storage (insertion)
    order, an empty sequence when none matches; it reads and never writes. *)
Definition get_documents (collection_name : string) (filter_dict : filter)
    (limit : Z) : M (list doc) :=
  fun st => match st with
            | None => (Raise StorageUnavailable, st)
            | Some d =>
                if filter_ok (engine d) filter_dict
                then (Return (take (Z.to_nat limit)
                        (List.filter (matches (engine d) filter_dict)
                           (collection d collection_name))), st)
                else (Raise (OperationFailure "bad pattern"), st)
            end.

(** Modelled from the spec: [insert(collection, document)] stores the
    document under a fresh store-assigned identifier and returns that
    identifier as a string; it fails with [StorageUnavailable] when there is
    no backend. *)
Definition create_document (collection_name : string) (data : doc) : M string :=
  fun st => match st with
            | None => (Raise StorageUnavailable, st)
            | Some d =>
                let oid := hex_of 24 (next_id d) in
                let stored := <["_id" := VOid oid]> data in
                (Return oid,
                 Some {| collections :=
                           <[collection_name := (collection d collection_name ++ [stored])%list]>
                             (collections d);
                         next_id := N.succ (next_id d);
                         db_name := db_name d;
                         listing_error := listing_error d;
                         engine := engine d |})
            end.

(** ** Schemas ([schemas.py]) *)

Definition opt_str (o : option string) : value :=
  match o with Some s => VStr s | None => VNone end.
Definition opt_int (o : option Z) : value :=
  match o with Some z => VInt z | None => VNone end.
Definition opt_date (o : option datetime) : value :=
  match o with Some t => VDate t | None => VNone end.

Module Company.
Record t := {
  name : string;
  website : option string;
  location : option string;
  logo_url : option string;
  description : option string
}.
Definition model_dump (c : t) : doc :=
  <["description" := opt_str (description c)]>
  (<["logo_url" := opt_str (logo_url c)]>
  (<["location" := opt_str (location c)]>
  (<["website" := opt_str (website c)]>
  {["name" := VStr (name c)]}))).
End Company.

Module Job.
Record t := {
  title : string;
  company_id : option string;
  company_name : string;
  location : string;
  employment_type : string;
  salary_min : option Z;
  salary_max : option Z;
  description : string;
  requirements : list string;
  tags : list string;
  is_active : bool;
  posted_at : option datetime
}.
Definition model_dump (j : t) : doc :=
  <["posted_at" := opt_date (posted_at j)]>
  (<["is_active" := VBool (is_active j)]>
  (<["tags" := VStrs (tags j)]>
  (<["requirements" := VStrs (requirements j)]>
  (<["description" := VStr (description j)]>
  (<["salary_max" := opt_int (salary_max j)]>
  (<["salary_min" := opt_int (salary_min j)]>
  (<["employment_type" := VStr (employment_type j)]>
  (<["location" := VStr (location j)]>
  (<["company_name" := VStr (company_name j)]>
  (<["company_id" := opt_str (company_id j)]>
  {["title" := VStr (title j)]})))))))))).
End Job.

Module Application.
Record t := {
  job_id : string;
  job_title : string;
  company_name : string;
  name : string;
  email : string;
  resume_url : option string;
  cover_letter : option string;
  status : string
}.
Definition model_dump (a : t) : doc :=
  <["status" := VStr (status a)]>
  (<["cover_letter" := opt_str (cover_letter a)]>
  (<["resume_url" := opt_str (resume_url a)]>
  (<["email" := VStr (email a)]>
  (<["name" := VStr (name a)]>
  (<["company_name" := VStr (company_name a)]>
  (<["job_title" := VStr (job_title a)]>
  {["job_id" := VStr (job_id a)]})))))).
End Application.

(** ** Handlers ([main.py]) *)

Definition not_configured : exn := HTTPException 500 "Database not configured".

(** [d[k]], raising [KeyError] on a missing key. *)
Definition getitem (d : doc) (k : string) : result value :=
  match d !! k with
  | Some v => Return v
  | None => Raise (KeyError k)
  end.

(** [j["_id"] = str(j["_id"]) if "_id" in j else None] *)
Definition stringify_id (j : doc) : doc :=
  <["_id" := match j !! "_id" with
             | Some v => VStr (py_str v)
             | None => VNone
             end]> j.

(** [if "posted_at" in j and isinstance(j["posted_at"], datetime):
       j["posted_at"] = j["posted_at"].isoformat()] *)
Definition serialize_posted_at (j : doc) : doc :=
  match j !! "posted_at" with
  | Some (VDate t) => <["posted_at" := VStr (isoformat t)]> j
  | _ => j
  end.

(** The body of the loop of [list_jobs]. *)
Definition normalize_job (j : doc) : doc := serialize_posted_at (stringify_id j).

(** [GET /]. *)
Definition read_root : M (gmap string value) :=
  ret {["message" := VStr "Job Portal API is running"]}.

(** The filter [list_jobs] builds from its query parameters. *)
Definition filter_query (q location tag : option string) : filter :=
  let f0 : filter := {["is_active" := FCond (CEq (VBool true))]} in
  let f1 := if given location
            then <["location" := FCond (CRegex (default EmptyString location) "i")]> f0
            else f0 in
  let f2 := if given tag
            then <["tags" := FCond (CIn [VStr (default EmptyString tag)])]> f1
            else f1 in
  if given q
  then let s := default EmptyString q in
       <["$or" := FOr [ {["title" := CRegex s "i"]};
                        {["company_name" := CRegex s "i"]};
                        {["description" := CRegex s "i"]};
                        {["tags" := CRegex s "i"]} ]]> f2
  else f2.

(** [GET /jobs]; the value is the list under ["items"]. *)
Definition list_jobs (q location tag : option string) (limit : Z) : M (list doc) :=
  let* d := db in
  match d with
  | None => raise not_configured
  | Some _ =>
      let* jobs := get_documents "job" (filter_query q location tag) limit in
      ret (map normalize_job jobs)
  end.

(** [POST /jobs]; [now] is the reading of [datetime.utcnow()], the value is
    the string under ["id"]. *)
Definition create_job (now : datetime) (job : Job.t) : M string :=
  let* d := db in
  match d with
  | None => raise not_configured
  | Some _ =>
      let data := Job.model_dump job in
      let data := if negb (truthy (default VNone (data !! "posted_at")))
                  then <["posted_at" := VDate now]> data else data in
      let* job_id := create_document "job" data in
      ret job_id
  end.

Definition by_id (oid : string) : filter := {["_id" := FCond (CEq (VOid oid))]}.

(** [not doc] for the result of [find_one]. *)
Definition falsy_doc (o : option doc) : bool :=
  match o with
  | None => true
  | Some d => Nat.eqb (size d) 0
  end.

(** [GET /jobs/{job_id}]. *)
Definition get_job (job_id : string) : M doc :=
  let* d := db in
  match d with
  | None => raise not_configured
  | Some _ =>
      try_except
        (let* oid := lift (ObjectId job_id) in
         let* found := find_one "job" (by_id oid) in
         if falsy_doc found then raise (HTTPException 404 "Job not found")
         else
           let doc0 := default ∅ found in
           let* id := lift (getitem doc0 "_id") in
           let doc1 := <["_id" := VStr (py_str id)]> doc0 in
           ret (serialize_posted_at doc1))
        (fun _ => raise (HTTPException 400 "Invalid job id"))
  end.

(** [POST /applications]; the model is stored as its dictionary. *)
Definition submit_application (apply : Application.t) : M string :=
  let* d := db in
  match d with
  | None => raise not_configured
  | Some _ =>
      let* _ :=
        try_except
          (let* oid := lift (ObjectId (Application.job_id apply)) in
           let* job_obj := find_one "job" (by_id oid) in
           if falsy_doc job_obj then raise (HTTPException 404 "Job not found")
           else ret tt)
          (fun _ => raise (HTTPException 400 "Invalid job id")) in
      let* app_id := create_document "application" (Application.model_dump apply) in
      ret app_id
  end.

(** The filter of [list_applications]. *)
Definition applications_filter (job_id : option string) : filter :=
  if given job_id
  then <["job_id" := FCond (CEq (VStr (default EmptyString job_id)))]> ∅
  else ∅.

(** [GET /applications]. *)
Definition list_applications (job_id : option string) (limit : Z) : M (list doc) :=
  let* d := db in
  match d with
  | None => raise not_configured
  | Some _ =>
      let* apps := get_documents "application" (applications_filter job_id) limit in
      ret (map stringify_id apps)
  end.

(** [POST /companies]. *)
Definition create_company (company : Company.t) : M string :=
  let* d := db in
  match d with
  | None => raise not_configured
  | Some _ =>
      let* comp_id := create_document "company" (Company.model_dump company) in
      ret comp_id
  end.

(** [GET /companies]. *)
Definition list_companies (limit : Z) : M (list doc) :=
  let* d := db in
  match d with
  | None => raise not_configured
  | Some _ =>
      let* comps := get_documents "company" ∅ limit in
      ret (map stringify_id comps)
  end.

(** The message of an exception, [str(e)]. *)
Definition exn_str (e : exn) : string :=
  match e with
  | HTTPException s detail => int_str s ++ ": " ++ detail
  | InvalidId o => "'" ++ o ++ "' is not a valid ObjectId, it must be a 12-byte input or a 24-character hex string"
  | KeyError k => py_repr_str k
  | StorageUnavailable => "Database not available"
  | OperationFailure msg => msg
  end.

(** [os.getenv(k)] is truthy: the variable is set and not empty. *)
Definition env_set (env : gmap string string) (k : string) : bool :=
  match env !! k with
  | Some v => negb (String.eqb v EmptyString)
  | None => false
  end.

(** [GET /test]; [env] is the process environment. [substring 0 50] cuts
    bytes, which are the characters of an ASCII message. Inside the outer [try]
    only the collection listing can raise, and the inner [except] catches
    it; the outer [except] is kept as the source has it. *)
Definition test_database (env : gmap string string) : M (gmap string value) :=
  let response : gmap string value :=
    <["collections" := VStrs []]>
    (<["connection_status" := VStr "Not Connected"]>
    (<["database_name" := VNone]>
    (<["database_url" := VNone]>
    (<["database" := VStr "❌ Not Available"]>
    {["backend" := VStr "✅ Running"]})))) in
  let* response :=
    try_except
      (let* d := db in
       match d with
       | Some d =>
           let response := <["database" := VStr "✅ Available"]> response in
           let response := <["database_url" := VStr "✅ Configured"]> response in
           let response :=
             <["database_name" := VStr (default "✅ Connected" (db_name d))]> response in
           let response := <["connection_status" := VStr "Connected"]> response in
           try_except
             (let* names := lift (list_collection_names d) in
              let response := <["collections" := VStrs (take 10 names)]> response in
              ret (<["database" := VStr "✅ Connected & Working"]> response))
             (fun e =>
                ret (<["database" :=
                         VStr ("⚠️  Connected but Error: " ++ substring 0 50 (exn_str e))]>
                       response))
       | None =>
           ret (<["database" := VStr "⚠️  Available but not initialized"]> response)
       end)
      (fun e =>
         ret (<["database" := VStr ("❌ Error: " ++ substring 0 50 (exn_str e))]> response)) in
  let response :=
    <["database_url" :=
        VStr (if env_set env "DATABASE_URL" then "✅ Set" else "❌ Not Set")]> response in
  let response :=
    <["database_name" :=
        VStr (if env_set env "DATABASE_NAME" then "✅ Set" else "❌ Not Set")]> response in
  ret response.

(** ** Sample data *)

(** A matcher that reads every pattern as plain text; option ["i"] folds
    letter case. *)
Definition plain_engine : regex_engine :=
  {| rx_compiles := fun _ _ => true;
     rx_search := fun p o s =>
       if contains "i" o then contains (lower p) (lower s) else contains p s |}.

(** A matcher that reads every pattern as plain text and folds letter case
    beyond ASCII, as [fold_latin] does. *)
Definition latin_engine : regex_engine :=
  {| rx_compiles := fun _ _ => true;
     rx_search := fun p o s =>
       if contains "i" o then contains (fold_latin p) (fold_latin s) else contains p s |}.

Definition t0 : datetime :=
  {| year := 2024; month := 3; day := 9; hour := 14; minute := 5; second := 0;
     microsecond := 0 |}.

Definition oid1 : string := "65f0a1b2c3d4e5f601234567".
Definition oid2 : string := "65f0a1b2c3d4e5f601234568".
Definition oid3 : string := "65f0a1b2c3d4e5f601234569".
Definition oid_free : string := "65f0a1b2c3d4e5f6012345ff".

Definition job_berlin : Job.t :=
  {| Job.title := "Backend Engineer"; Job.company_id := None;
     Job.company_name := "Acme"; Job.location := "Berlin, Germany";
     Job.employment_type := "full-time"; Job.salary_min := Some 50000;
     Job.salary_max := None; Job.description := "Build services";
     Job.requirements := ["3 years"]; Job.tags := ["python"; "django"];
     Job.is_active := true; Job.posted_at := Some t0 |}.

Definition job_closed : Job.t :=
  {| Job.title := "Data Engineer"; Job.company_id := None;
     Job.company_name := "Initech"; Job.location := "Remote";
     Job.employment_type := "contract"; Job.salary_min := None;
     Job.salary_max := None; Job.description := "Pipelines";
     Job.requirements := []; Job.tags := ["Python"; "python3"];
     Job.is_active := false; Job.posted_at := Some t0 |}.

Definition job_design : Job.t :=
  {| Job.title := "Designer"; Job.company_id := None;
     Job.company_name := "Globex"; Job.location := "Remote";
     Job.employment_type := "part-time"; Job.salary_min := None;
     Job.salary_max := None; Job.description := "Draw screens";
     Job.requirements := []; Job.tags := ["figma"];
     Job.is_active := true; Job.posted_at := Some t0 |}.

Definition stored (oid : string) (d : doc) : doc := <["_id" := VOid oid]> d.

Definition doc_berlin : doc := stored oid1 (Job.model_dump job_berlin).
Definition doc_closed : doc := stored oid2 (Job.model_dump job_closed).
Definition doc_design : doc := stored oid3 (Job.model_dump job_design).

Definition sample_db : Database :=
  {| collections := {["job" := [doc_berlin; doc_closed; doc_design]]};
     next_id := 16; db_name := Some "jobs"; listing_error := None;
     engine := plain_engine |}.

Definition job_montreal : Job.t :=
  {| Job.title := "Ingénieur"; Job.company_id := None;
     Job.company_name := "Hydro"; Job.location := "MONTRÉAL";
     Job.employment_type := "full-time"; Job.salary_min := None;
     Job.salary_max := None; Job.description := "Réseaux";
     Job.requirements := []; Job.tags := ["énergie"];
     Job.is_active := true; Job.posted_at := Some t0 |}.

Definition doc_montreal : doc := stored oid1 (Job.model_dump job_montreal).

Definition latin_db : Database :=
  {| collections := {["job" := [doc_montreal]]};
     next_id := 16; db_name := Some "jobs"; listing_error := None;
     engine := latin_engine |}.

Definition application_free : Application.t :=
  {| Application.job_id := oid_free; Application.job_title := "Backend Engineer";
     Application.company_name := "Acme"; Application.name := "Ada";
     Application.email := "ada@example.org"; Application.resume_url := None;
     Application.cover_letter := None; Application.status := "submitted" |}.

(** A stored application that carries a creation time next to the schema's
    fields. *)
Definition doc_stamped : doc :=
  <["created_at" := VDate t0]> (stored oid1 (Application.model_dump application_free)).

Definition stamped_db : Database :=
  {| collections := {["application" := [doc_stamped]]};
     next_id := 16; db_name := Some "jobs"; listing_error := None;
     engine := plain_engine |}.

(** The documents of a successful list response. *)
Definition items_of (r : result (list doc) * option Database) : list doc :=
  match fst r with
  | Return l => l
  | Raise _ => []
  end.

(** ** Properties stated over documents *)

(** A field holds text containing [p] (letter case ignored), or a list with
    such an element. *)
Definition field_contains_ci (fold : string -> string) (p : string)
    (fv : option value) : Prop :=
  match fv with
  | Some (VStr s) => ci_substring fold p s
  | Some (VStrs l) => exists s, In s l /\ ci_substring fold p s
  | _ => False
  end.

Definition id_is_string (d : doc) : Prop := exists s, d !! "_id" = Some (VStr s).

Definition timestamps_serialized (d : doc) : Prop :=
  forall k t, d !! k <> Some (VDate t).

(** Every stored document carries its store-assigned [_id]. *)
Definition ids_assigned (d : Database) : Prop :=
  forall c j, In j (collection d c) -> is_Some (j !! "_id").

(** The four alternatives of the keyword clause. *)
Definition keyword_holds (e : regex_engine) (s : string) (d : doc) : bool :=
  cond_holds e (CRegex s "i") (d !! "title")
  || cond_holds e (CRegex s "i") (d !! "company_name")
  || cond_holds e (CRegex s "i") (d !! "description")
  || cond_holds e (CRegex s "i") (d !! "tags").

(** One of title, company name, description or tags contains [q], letter
    case ignored. *)
Definition keyword_in (fold : string -> string) (q : string) (j : doc) : Prop :=
  field_contains_ci fold q (j !! "title")
  \/ field_contains_ci fold q (j !! "company_name")
  \/ field_contains_ci fold q (j !! "description")
  \/ field_contains_ci fold q (j !! "tags").

(** The status text [test_database] reports for a storage state. *)
Definition database_status (st : option Database) : string :=
  match st with
  | None => "⚠️  Available but not initialized"
  | Some d =>
      match listing_error d with
      | Some msg => "⚠️  Connected but Error: " ++ substring 0 50 msg
      | None => "✅ Connected & Working"
      end
  end.

(** The endpoints that return stored documents. *)
Inductive endpoint :=
| JobsList (q location tag : option string) (limit : Z)
| JobDetail (job_id : string)
| ApplicationsList (job_id : option string) (limit : Z)
| CompaniesList (limit : Z).

(** The documents an endpoint answers with (none when it raises). *)
Definition returned_docs (ep : endpoint) (st : option Database) : list doc :=
  match ep with
  | JobsList q location tag limit => items_of (list_jobs q location tag limit st)
  | JobDetail job_id =>
      match fst (get_job job_id st) with
      | Return j => [j]
      | Raise _ => []
      end
  | ApplicationsList job_id limit => items_of (list_applications job_id limit st)
  | CompaniesList limit => items_of (list_companies limit st)
  end.

(** The collection an endpoint reads, the rewriting it applies to each
    document it found, and the fields that rewriting assigns. *)
Definition collection_of (ep : endpoint) : string :=
  match ep with
  | JobsList _ _ _ _ | JobDetail _ => "job"
  | ApplicationsList _ _ => "application"
  | CompaniesList _ => "company"
  end.

Definition normalization_of (ep : endpoint) : doc -> doc :=
  match ep with
  | JobsList _ _ _ _ | JobDetail _ => normalize_job
  | ApplicationsList _ _ | CompaniesList _ => stringify_id
  end.

Definition assigned_fields (ep : endpoint) : list string :=
  match ep with
  | JobsList _ _ _ _ | JobDetail _ => ["_id"; "posted_at"]
  | ApplicationsList _ _ | CompaniesList _ => ["_id"]
  end.

(** ** Storage after a write *)

(** The identifier the next insert assigns. *)
Definition fresh_id (d : Database) : string := hex_of 24 (next_id d).

(** No document of collection [c] carries the identifier [oid]. *)
Definition id_unused (d : Database) (c oid : string) : Prop :=
  forall j, In j (collection d c) -> j !! "_id" <> Some (VOid oid).

(** The dictionary [create_job] hands to the store: the dump of the job
    with [posted_at] set, to the posted time or else to the current time. *)
Definition job_data (now : datetime) (job : Job.t) : doc :=
  <["posted_at" := VDate (default now (Job.posted_at job))]> (Job.model_dump job).

(** The salaries of a job fit the store's 8-byte integers. *)
Definition salaries_storable (job : Job.t) : Prop :=
  forall z : Z,
    Job.salary_min job = Some z \/ Job.salary_max job = Some z ->
    - 2 ^ 63 <= z < 2 ^ 63.

(** The storage handle after a handler has run. *)
Definition db_after {A} (r : result A * option Database) : option Database := snd r.

(** Every stored job carries an identifier in canonical form, and no two
    different stored jobs carry the same one. *)
Definition job_ids_canonical (d : Database) : Prop :=
  forall j, In j (collection d "job") ->
    exists h, j !! "_id" = Some (VOid h) /\ ObjectId h = Return h.

Definition job_ids_unique (d : Database) : Prop :=
  forall j1 j2, In j1 (collection d "job") -> In j2 (collection d "job") ->
    j1 !! "_id" = j2 !! "_id" -> j1 = j2.

(** The sample store after one more job has been posted. *)
Definition sample_db_grown : Database :=
  default sample_db (db_after (create_job t0 job_design (Some sample_db))).

Definition company_acme : Company.t :=
  {| Company.name := "Acme"; Company.website := None; Company.location := Some "Berlin";
     Company.logo_url := None; Company.description := None |}.

(** ** Facts about text *)

Lemma starts_with_spec (p s : string) :
  starts_with p s = true <-> exists post, s = p ++ post.
Proof.
  revert s. induction p as [|a p IH]; intros s; simpl.
  - split; [intros _; by exists s | done].
  - destruct s as [|b s].
    + split; [done | intros [post H]; discriminate].
    + rewrite andb_true_iff, IH. split.
      * intros [Hab [post ->]]. apply Ascii.eqb_eq in Hab as ->. by exists post.
      * intros [post H]. injection H as -> ->. split; [apply Ascii.eqb_refl | by exists post].
Qed.

Lemma contains_spec (p s : string) :
  contains p s = true <-> exists pre post, s = pre ++ p ++ post.
Proof.
  induction s as [|b s IH]; simpl; rewrite orb_true_iff, starts_with_spec.
  - split.
    + intros [[post H] | ?]; [|done]. by exists EmptyString, post.
    + intros [pre [post H]]. left. destruct pre; [by exists post | discriminate].
  - rewrite IH. split.
    + intros [[post H] | [pre [post H]]].
      * by exists EmptyString, post.
      * exists (String b pre), post. simpl. by rewrite H.
    + intros [pre [post H]]. destruct pre as [|c pre].
      * left. by exists post.
      * right. injection H as -> ->. by exists pre, post.
Qed.

Lemma lower_case_folding : case_folding lower.
Proof. by intros s _. Qed.

Lemma plain_engine_literal : literal_engine lower plain_engine.
Proof. by intros p s _. Qed.

Lemma fold_latin_case_folding : case_folding fold_latin.
Proof.
  intros s. unfold is_ascii. induction s as [|c s IH]; [done |].
  cbn [string_forallb fold_latin lower]. rewrite andb_true_iff. intros [Hc Hs].
  destruct (Ascii.eqb c (ascii_of_N 195)) eqn:E.
  - apply Ascii.eqb_eq in E. subst c. discriminate.
  - by rewrite IH.
Qed.

Lemma latin_engine_literal : literal_engine fold_latin latin_engine.
Proof. by intros p s _. Qed.

(** On ASCII text every case folding reads "contains, letter case ignored"
    as [lower] does. *)
Lemma ci_substring_ascii (fold : string -> string) (p s : string) :
  case_folding fold -> is_ascii p = true -> is_ascii s = true ->
  ci_substring fold p s <-> exists pre post : string, lower s = pre ++ lower p ++ post.
Proof. intros Hf Hp Hs. unfold ci_substring. by rewrite (Hf p Hp), (Hf s Hs). Qed.

(** Under [fold_latin] a small accented letter is found in capitals. *)
Example latin_engine_finds_accent :
  no_metachar "é" = true /\ rx_search latin_engine "é" "i" "MONTRÉAL" = true.
Proof. split; reflexivity. Qed.

(** ** Facts about filters *)

Lemma matches_spec (e : regex_engine) (f : filter) (d : doc) :
  matches e f d = true <->
  forall k x, f !! k = Some x -> fexpr_holds e k x d = true.
Proof.
  unfold matches. rewrite forallb_forall. split.
  - intros H k x Hk. apply (H (k, x)).
    apply list_elem_of_In, elem_of_map_to_list. exact Hk.
  - intros H [k x] Hin. apply H.
    apply list_elem_of_In, elem_of_map_to_list in Hin. exact Hin.
Qed.

Lemma sub_matches_singleton (e : regex_engine) (k : string) (c : cond) (d : doc) :
  sub_matches e {[k := c]} d = cond_holds e c (d !! k).
Proof.
  unfold sub_matches. rewrite map_to_list_singleton. simpl. apply andb_true_r.
Qed.

Lemma matches_empty (e : regex_engine) (d : doc) : matches e ∅ d = true.
Proof. unfold matches. by rewrite map_to_list_empty. Qed.

Lemma filter_ok_empty (e : regex_engine) : filter_ok e ∅ = true.
Proof. unfold filter_ok. by rewrite map_to_list_empty. Qed.

Lemma filter_all {A} (f : A -> bool) (l : list A) :
  (forall x, f x = true) -> List.filter f l = l.
Proof.
  intros H. induction l as [|a l IH]; simpl; [done |]. by rewrite H, IH.
Qed.

Lemma In_take {A} (n : nat) (l : list A) (x : A) : In x (take n l) -> In x l.
Proof.
  revert n. induction l as [|a l IH]; intros [|n]; simpl; try tauto.
  intros [H | H]; [by left | right; eauto].
Qed.

Lemma existsb_false {A} (f : A -> bool) (l : list A) :
  (forall x, f x = false) -> existsb f l = false.
Proof.
  intros H. induction l as [|a l IH]; simpl; [done |]. by rewrite H, IH.
Qed.

Lemma eq_holds_true_bool (fv : option value) :
  eq_holds (VBool true) fv = true <-> fv = Some (VBool true).
Proof.
  unfold eq_holds, value_eqb. destruct fv as [v|].
  - destruct v; try (rewrite bool_decide_eq_true; split; congruence).
    rewrite existsb_false by (intros; apply bool_decide_eq_false; congruence).
    rewrite orb_false_r, bool_decide_eq_true. split; congruence.
  - rewrite bool_decide_eq_true. split; congruence.
Qed.

Lemma filter_query_active (q location tag : option string) :
  filter_query q location tag !! "is_active" = Some (FCond (CEq (VBool true))).
Proof.
  unfold filter_query. destruct (given location), (given tag), (given q);
    by simplify_map_eq.
Qed.

Lemma filter_query_location (q location tag : option string) :
  filter_query q location tag !! "location" =
  if given location then Some (FCond (CRegex (default EmptyString location) "i")) else None.
Proof.
  unfold filter_query. destruct (given location), (given tag), (given q);
    by simplify_map_eq.
Qed.

Lemma filter_query_tags (q location tag : option string) :
  filter_query q location tag !! "tags" =
  if given tag then Some (FCond (CIn [VStr (default EmptyString tag)])) else None.
Proof.
  unfold filter_query. destruct (given location), (given tag), (given q);
    by simplify_map_eq.
Qed.

Lemma filter_query_matches (e : regex_engine) (q location tag : option string) (d : doc) :
  matches e (filter_query q location tag) d = true <->
  d !! "is_active" = Some (VBool true)
  /\ (given location = true ->
      cond_holds e (CRegex (default EmptyString location) "i") (d !! "location") = true)
  /\ (given tag = true ->
      cond_holds e (CIn [VStr (default EmptyString tag)]) (d !! "tags") = true)
  /\ (given q = true -> keyword_holds e (default EmptyString q) d = true).
Proof.
  rewrite matches_spec, <- eq_holds_true_bool. unfold filter_query, keyword_holds.
  split.
  - intros H. repeat split.
    + apply (H "is_active" (FCond (CEq (VBool true)))).
      destruct (given location), (given tag), (given q); by simplify_map_eq.
    + intros Hl. rewrite Hl in H.
      apply (H "location" (FCond (CRegex (default EmptyString location) "i"))).
      destruct (given tag), (given q); by simplify_map_eq.
    + intros Ht. rewrite Ht in H.
      apply (H "tags" (FCond (CIn [VStr (default EmptyString tag)]))).
      destruct (given q); by simplify_map_eq.
    + intros Hq. rewrite Hq in H.
      specialize (H "$or" _ (lookup_insert_eq _ _ _)). simpl in H.
      rewrite !sub_matches_singleton, orb_false_r in H.
      by rewrite <- !orb_assoc.
  - intros (Ha & Hl & Ht & Hq) k x Hk.
    destruct (given location), (given tag), (given q);
      repeat (rewrite lookup_insert in Hk; case_decide; simplify_eq);
      try (rewrite lookup_singleton in Hk; case_decide; simplify_eq);
      simpl; auto;
      rewrite !sub_matches_singleton, orb_false_r, !orb_assoc; auto.
Qed.

(** ** Facts about the handlers *)

Lemma filter_ok_by_id (e : regex_engine) (oid : string) : filter_ok e (by_id oid) = true.
Proof. unfold filter_ok, by_id. by rewrite map_to_list_singleton. Qed.

Lemma list_jobs_run (d : Database) (q location tag : option string) (limit : Z) :
  list_jobs q location tag limit (Some d) =
  if filter_ok (engine d) (filter_query q location tag)
  then (Return (map normalize_job
                  (take (Z.to_nat limit)
                     (List.filter (matches (engine d) (filter_query q location tag))
                        (collection d "job")))), Some d)
  else (Raise (OperationFailure "bad pattern"), Some d).
Proof.
  unfold list_jobs, bind, db, get_documents, ret. simpl.
  by destruct (filter_ok _ _).
Qed.

Lemma list_applications_run (d : Database) (job_id : option string) (limit : Z) :
  list_applications job_id limit (Some d) =
  if filter_ok (engine d) (applications_filter job_id)
  then (Return (map stringify_id
                  (take (Z.to_nat limit)
                     (List.filter (matches (engine d) (applications_filter job_id))
                        (collection d "application")))), Some d)
  else (Raise (OperationFailure "bad pattern"), Some d).
Proof.
  unfold list_applications, bind, db, get_documents, ret. simpl.
  by destruct (filter_ok _ _).
Qed.

Lemma list_companies_run (d : Database) (limit : Z) :
  list_companies limit (Some d) =
  (Return (map stringify_id (take (Z.to_nat limit) (collection d "company"))), Some d).
Proof.
  unfold list_companies, bind, db, get_documents, ret. simpl.
  rewrite filter_ok_empty. simpl. rewrite filter_all; [done | apply matches_empty].
Qed.

(** What [get_job] does on configured storage, case by case. *)
Lemma get_job_run (d : Database) (job_id : string) :
  get_job job_id (Some d) =
  match ObjectId job_id with
  | Raise _ => (Raise (HTTPException 400 "Invalid job id"), Some d)
  | Return oid =>
      match List.find (matches (engine d) (by_id oid)) (collection d "job") with
      | None => (Raise (HTTPException 400 "Invalid job id"), Some d)
      | Some j =>
          if Nat.eqb (size j) 0
          then (Raise (HTTPException 400 "Invalid job id"), Some d)
          else match j !! "_id" with
               | None => (Raise (HTTPException 400 "Invalid job id"), Some d)
               | Some v =>
                   (Return (serialize_posted_at (<["_id" := VStr (py_str v)]> j)), Some d)
               end
      end
  end.
Proof.
  unfold get_job, bind, try_except, db, lift, find_one, raise, ret. simpl.
  destruct (ObjectId job_id) as [oid|x]; simpl; [|done].
  rewrite filter_ok_by_id. simpl.
  destruct (List.find _ _) as [j|]; simpl; [|done].
  destruct (Nat.eqb (size j) 0); simpl; [done |].
  unfold getitem. by destruct (j !! "_id").
Qed.

(** The existence check of [submit_application], case by case. *)
Lemma submit_application_run (d : Database) (apply : Application.t) :
  submit_application apply (Some d) =
  match ObjectId (Application.job_id apply) with
  | Raise _ => (Raise (HTTPException 400 "Invalid job id"), Some d)
  | Return oid =>
      if falsy_doc (List.find (matches (engine d) (by_id oid)) (collection d "job"))
      then (Raise (HTTPException 400 "Invalid job id"), Some d)
      else create_document "application" (Application.model_dump apply) (Some d)
  end.
Proof.
  unfold submit_application, bind, try_except, db, lift, find_one, raise, ret. simpl.
  destruct (ObjectId _) as [oid|x]; simpl; [|done].
  rewrite filter_ok_by_id. simpl.
  by destruct (falsy_doc _).
Qed.

(** Whatever makes [get_job] fail on configured storage, the answer is the
    400 of the [except] clause; 404 is never answered. *)
Lemma get_job_failure (d : Database) (job_id : string) (e : exn) (st : option Database) :
  get_job job_id (Some d) = (Raise e, st) ->
  e = HTTPException 400 "Invalid job id" /\ st = Some d.
Proof.
  rewrite get_job_run.
  destruct (ObjectId job_id); [|by intros [= <- <-]].
  destruct (List.find _ _) as [j|]; [|by intros [= <- <-]].
  destruct (Nat.eqb (size j) 0); [by intros [= <- <-] |].
  destruct (j !! "_id"); [discriminate | by intros [= <- <-]].
Qed.

(** A failing [submit_application] on configured storage answers 400 and
    leaves the store as it was. *)
Lemma submit_application_failure (d : Database) (apply : Application.t)
    (e : exn) (st : option Database) :
  submit_application apply (Some d) = (Raise e, st) ->
  e = HTTPException 400 "Invalid job id" /\ st = Some d.
Proof.
  rewrite submit_application_run.
  destruct (ObjectId _); [|by intros [= <- <-]].
  destruct (falsy_doc _); [by intros [= <- <-] | discriminate].
Qed.

Lemma find_all_false {A} (f : A -> bool) (l : list A) :
  (forall x, In x l -> f x = false) -> List.find f l = None.
Proof.
  induction l as [|a l IH]; simpl; [done |]. intros H.
  rewrite (H a) by auto. apply IH. auto.
Qed.

Lemma matches_by_id (e : regex_engine) (oid : string) (j : doc) :
  matches e (by_id oid) j = true <-> j !! "_id" = Some (VOid oid).
Proof.
  unfold matches, by_id. rewrite map_to_list_singleton. simpl.
  rewrite andb_true_r. unfold eq_holds, value_eqb.
  destruct (j !! "_id") as [v|].
  - destruct v; try (rewrite bool_decide_eq_true; split; congruence).
    rewrite existsb_false by (intros; apply bool_decide_eq_false; congruence).
    rewrite orb_false_r, bool_decide_eq_true. split; congruence.
  - rewrite bool_decide_eq_true. split; congruence.
Qed.

(** An identifier that does not parse is answered with 400. *)
Lemma get_job_malformed_id (d : Database) (job_id : string) (x : exn) :
  ObjectId job_id = Raise x ->
  get_job job_id (Some d) = (Raise (HTTPException 400 "Invalid job id"), Some d).
Proof. intros H. by rewrite get_job_run, H. Qed.

(** So is every identifier that parses and that no stored job carries. *)
Lemma get_job_unassigned_id (d : Database) (job_id oid : string) :
  ObjectId job_id = Return oid ->
  (forall j, In j (collection d "job") -> j !! "_id" <> Some (VOid oid)) ->
  get_job job_id (Some d) = (Raise (HTTPException 400 "Invalid job id"), Some d).
Proof.
  intros H Hfree. rewrite get_job_run, H.
  rewrite find_all_false; [done |].
  intros j Hj. apply not_true_is_false. rewrite matches_by_id. by apply Hfree.
Qed.

Lemma submit_application_malformed_id (d : Database) (apply : Application.t) (x : exn) :
  ObjectId (Application.job_id apply) = Raise x ->
  submit_application apply (Some d)
  = (Raise (HTTPException 400 "Invalid job id"), Some d).
Proof. intros H. by rewrite submit_application_run, H. Qed.

Lemma submit_application_unknown_job (d : Database) (apply : Application.t) (oid : string) :
  ObjectId (Application.job_id apply) = Return oid ->
  (forall j, In j (collection d "job") -> j !! "_id" <> Some (VOid oid)) ->
  submit_application apply (Some d)
  = (Raise (HTTPException 400 "Invalid job id"), Some d).
Proof.
  intros H Hfree. rewrite submit_application_run, H.
  rewrite find_all_false; [done |].
  intros j Hj. apply not_true_is_false. rewrite matches_by_id. by apply Hfree.
Qed.

(** C1: a well-formed identifier that no stored job carries is answered by
    [get_job] with 400 "Invalid job id", not with 404. *)
Theorem get_job_unassigned_id_answers_400 :
  ObjectId oid_free = Return oid_free
  /\ (forall j, In j (collection sample_db "job") -> j !! "_id" <> Some (VOid oid_free))
  /\ get_job oid_free (Some sample_db)
     = (Raise (HTTPException 400 "Invalid job id"), Some sample_db).
Proof.
  split; [reflexivity |]. split; [|reflexivity].
  intros j [<- | [<- | [<- | []]]]; vm_compute; discriminate.
Qed.

(** C2: an application whose well-formed [job_id] names no stored job is
    answered with 400 "Invalid job id", not with 404; nothing is inserted. *)
Theorem submit_application_unknown_job_answers_400 :
  ObjectId (Application.job_id application_free) = Return oid_free
  /\ (forall j, In j (collection sample_db "job") -> j !! "_id" <> Some (VOid oid_free))
  /\ submit_application application_free (Some sample_db)
     = (Raise (HTTPException 400 "Invalid job id"), Some sample_db).
Proof.
  split; [reflexivity |]. split; [|reflexivity].
  intros j [<- | [<- | [<- | []]]]; vm_compute; discriminate.
Qed.

(** C9: with storage not configured, each of the seven data operations
    raises the 500 "Database not configured" at once; no storage operation
    is reached (each of those would raise [StorageUnavailable]) and [db]
    stays unset. *)
Theorem unconfigured_storage_fails_fast
    (q location tag job_id : option string) (limit : Z) (now : datetime)
    (job : Job.t) (id : string) (apply : Application.t) (company : Company.t) :
  let e := HTTPException 500 "Database not configured" in
  list_jobs q location tag limit None = (Raise e, None)
  /\ create_job now job None = (Raise e, None)
  /\ get_job id None = (Raise e, None)
  /\ submit_application apply None = (Raise e, None)
  /\ list_applications job_id limit None = (Raise e, None)
  /\ create_company company None = (Raise e, None)
  /\ list_companies limit None = (Raise e, None).
Proof. repeat split. Qed.

(** C10: an empty [q], [location] or [tag] builds the filter of the absent
    parameter, so the listing answers the same; an empty [job_id] gives
    [list_applications] the empty filter, and the answer is the first
    [limit] stored applications. *)
Theorem empty_parameter_is_absent
    (q location tag : option string) (limit : Z) (st : option Database) (d : Database) :
  list_jobs (Some EmptyString) location tag limit st = list_jobs None location tag limit st
  /\ list_jobs q (Some EmptyString) tag limit st = list_jobs q None tag limit st
  /\ list_jobs q location (Some EmptyString) limit st = list_jobs q location None limit st
  /\ list_applications (Some EmptyString) limit st = list_applications None limit st
  /\ applications_filter (Some EmptyString) = ∅
  /\ list_applications (Some EmptyString) limit (Some d)
     = (Return (map stringify_id (take (Z.to_nat limit) (collection d "application"))),
        Some d).
Proof.
  repeat split.
  rewrite list_applications_run. change (applications_filter (Some EmptyString)) with (∅ : filter).
  rewrite filter_ok_empty, filter_all; [done | apply matches_empty].
Qed.

Lemma stringify_id_other (j : doc) (k : string) :
  k <> "_id" -> stringify_id j !! k = j !! k.
Proof. intros H. unfold stringify_id. by rewrite lookup_insert_ne. Qed.

Lemma serialize_posted_at_other (j : doc) (k : string) :
  k <> "posted_at" -> serialize_posted_at j !! k = j !! k.
Proof.
  intros H. unfold serialize_posted_at.
  destruct (j !! "posted_at") as [[]|]; try done. by rewrite lookup_insert_ne.
Qed.

Lemma normalize_job_other (j : doc) (k : string) :
  k <> "_id" -> k <> "posted_at" -> normalize_job j !! k = j !! k.
Proof.
  intros H1 H2. unfold normalize_job.
  by rewrite serialize_posted_at_other, stringify_id_other.
Qed.

(** The documents of a successful job listing: each is the normalised form
    of a stored job that the filter matches. *)
Lemma list_jobs_items (d : Database) (q location tag : option string) (limit : Z)
    (items : list doc) (st : option Database) (r : doc) :
  list_jobs q location tag limit (Some d) = (Return items, st) ->
  In r items ->
  exists j, In j (collection d "job")
            /\ matches (engine d) (filter_query q location tag) j = true
            /\ r = normalize_job j.
Proof.
  rewrite list_jobs_run. destruct (filter_ok _ _); [|discriminate].
  intros [= <- <-] Hin. apply in_map_iff in Hin as (j & <- & Hj).
  apply In_take, filter_In in Hj as [Hj Hm]. by exists j.
Qed.

(** C4: whatever [q], [location] and [tag] are, the filter of the job
    listing requires [is_active = True], and every document the listing
    returns has [is_active] equal to [True]. *)
Theorem list_jobs_only_active (d : Database) (q location tag : option string)
    (limit : Z) (items : list doc) (st : option Database) :
  list_jobs q location tag limit (Some d) = (Return items, st) ->
  filter_query q location tag !! "is_active" = Some (FCond (CEq (VBool true)))
  /\ forall r, In r items -> r !! "is_active" = Some (VBool true).
Proof.
  intros Hrun. split; [apply filter_query_active |].
  intros r Hr. destruct (list_jobs_items _ _ _ _ _ _ _ _ Hrun Hr) as (j & _ & Hm & ->).
  rewrite normalize_job_other by done.
  by apply filter_query_matches in Hm as [Ha _].
Qed.

Lemma list_jobs_only_active_witness :
  exists items,
    list_jobs (Some "engineer") None None 50 (Some sample_db) = (Return items, Some sample_db)
    /\ length items = 1%nat
    /\ forall r, In r items -> r !! "is_active" = Some (VBool true).
Proof.
  eexists. split; [reflexivity |]. split; [reflexivity |].
  exact (proj2 (list_jobs_only_active sample_db (Some "engineer") None None 50 _ _ eq_refl)).
Defined.

(** ** The clauses of the job filter *)

Lemma regex_text_spec (fold : string -> string) (e : regex_engine) (p s : string) :
  literal_engine fold e -> no_metachar p = true ->
  rx_search e p "i" s = true <-> ci_substring fold p s.
Proof.
  intros He Hp. destruct (He p s Hp) as [_ ->]. apply contains_spec.
Qed.

Lemma regex_field_spec (fold : string -> string) (e : regex_engine) (p : string)
    (fv : option value) :
  literal_engine fold e -> no_metachar p = true ->
  cond_holds e (CRegex p "i") fv = true <-> field_contains_ci fold p fv.
Proof.
  intros He Hp. unfold cond_holds, field_contains_ci.
  destruct fv as [v|]; [|done].
  destruct v; try done.
  - apply (regex_text_spec fold e p s He Hp).
  - rewrite existsb_exists. split; intros (s & Hs & H); exists s; split; auto;
      by apply (regex_text_spec fold e p s He Hp).
Qed.

Lemma keyword_holds_spec (fold : string -> string) (e : regex_engine) (q : string)
    (j : doc) :
  literal_engine fold e -> no_metachar q = true ->
  keyword_holds e q j = true <-> keyword_in fold q j.
Proof.
  intros He Hq. unfold keyword_holds, keyword_in.
  rewrite !orb_true_iff, !(regex_field_spec fold e q _ He Hq). tauto.
Qed.

Lemma given_Some (s : string) : s <> EmptyString -> given (Some s) = true.
Proof. intros H. simpl. by destruct s. Qed.

Lemma in_tag_spec (e : regex_engine) (t : string) (l : list string) :
  cond_holds e (CIn [VStr t]) (Some (VStrs l)) = true <-> In t l.
Proof.
  simpl. unfold value_eqb. rewrite orb_false_r, existsb_exists. split.
  - intros (s & Hs & H). apply bool_decide_eq_true in H. by injection H as ->.
  - intros H. exists t. split; [done | by apply bool_decide_eq_true].
Qed.

(** C5: for a keyword [q] without operator characters, a job matches the
    filter exactly when title, company name, description or some tag
    contains [q], letter case ignored as the store folds it, and the job is
    active and meets the location and tag clauses that were supplied; the
    listing returns only such jobs. On ASCII text "contains, letter case
    ignored" is containment after lower-casing. *)
Theorem keyword_clause_semantics (fold : string -> string) (d : Database) (q : string)
    (location tag : option string) :
  case_folding fold -> literal_engine fold (engine d) ->
  q <> EmptyString -> no_metachar q = true ->
  (forall j : doc,
      matches (engine d) (filter_query (Some q) location tag) j = true <->
      keyword_in fold q j
      /\ j !! "is_active" = Some (VBool true)
      /\ (given location = true ->
          cond_holds (engine d) (CRegex (default EmptyString location) "i")
            (j !! "location") = true)
      /\ (given tag = true ->
          cond_holds (engine d) (CIn [VStr (default EmptyString tag)]) (j !! "tags") = true))
  /\ (forall (limit : Z) (items : list doc) (st : option Database) (r : doc),
         list_jobs (Some q) location tag limit (Some d) = (Return items, st) ->
         In r items ->
         keyword_in fold q r
         /\ exists j, In j (collection d "job") /\ r = normalize_job j
                      /\ matches (engine d) (filter_query None location tag) j = true)
  /\ (forall s : string, is_ascii q = true -> is_ascii s = true ->
         (ci_substring fold q s <->
          exists pre post : string, lower s = pre ++ lower q ++ post)).
Proof.
  intros Hf He Hne Hq.
  assert (Hj : forall j : doc,
      matches (engine d) (filter_query (Some q) location tag) j = true <->
      keyword_in fold q j /\ matches (engine d) (filter_query None location tag) j = true).
  { intros j. rewrite !filter_query_matches, given_Some by done. simpl.
    rewrite <- (keyword_holds_spec fold _ q j He Hq). intuition discriminate. }
  split; [|split].
  - intros j. rewrite Hj, filter_query_matches. simpl. intuition discriminate.
  - intros limit items st r Hrun Hr.
    destruct (list_jobs_items _ _ _ _ _ _ _ _ Hrun Hr) as (j & Hin & Hm & ->).
    apply Hj in Hm as [Hk Hm]. split; [|by exists j].
    unfold keyword_in in *. by rewrite !normalize_job_other.
  - intros s Hq' Hs. by apply ci_substring_ascii.
Qed.

Lemma keyword_clause_semantics_witness :
  case_folding fold_latin /\ literal_engine fold_latin (engine latin_db)
  /\ "ingénieur" <> EmptyString /\ no_metachar "ingénieur" = true
  /\ (matches latin_engine (filter_query (Some "ingénieur") (Some "montréal") None)
        doc_montreal = true <->
      keyword_in fold_latin "ingénieur" doc_montreal
      /\ doc_montreal !! "is_active" = Some (VBool true)
      /\ (given (Some "montréal") = true ->
          cond_holds latin_engine (CRegex "montréal" "i") (doc_montreal !! "location") = true)
      /\ (given None = true ->
          cond_holds latin_engine (CIn [VStr EmptyString]) (doc_montreal !! "tags") = true)).
Proof.
  split; [apply fold_latin_case_folding |]. split; [apply latin_engine_literal |].
  split; [discriminate |]. split; [reflexivity |].
  exact (proj1 (keyword_clause_semantics fold_latin latin_db "ingénieur" (Some "montréal")
                  None fold_latin_case_folding latin_engine_literal
                  ltac:(discriminate) eq_refl) doc_montreal).
Defined.

(** C6: a supplied [tag] puts [{"$in": [tag]}] under ["tags"], whatever [q]
    and [location] are; a job with a list of tags meets it exactly when the
    list has an element equal to [tag], and the listing returns only such
    jobs. *)
Theorem tag_clause_semantics (d : Database) (t : string) (q location : option string) :
  t <> EmptyString ->
  filter_query q location (Some t) !! "tags" = Some (FCond (CIn [VStr t]))
  /\ (forall (j : doc) (l : list string),
         j !! "tags" = Some (VStrs l) ->
         (fexpr_holds (engine d) "tags" (FCond (CIn [VStr t])) j = true <-> In t l)
         /\ (matches (engine d) (filter_query q location (Some t)) j = true -> In t l))
  /\ (forall (limit : Z) (items : list doc) (st : option Database) (r : doc)
             (l : list string),
         list_jobs q location (Some t) limit (Some d) = (Return items, st) ->
         In r items -> r !! "tags" = Some (VStrs l) -> In t l).
Proof.
  intros Hne.
  assert (Hm : forall (j : doc) (l : list string), j !! "tags" = Some (VStrs l) ->
            matches (engine d) (filter_query q location (Some t)) j = true -> In t l).
  { intros j l Hl Hm. apply filter_query_matches in Hm as (_ & _ & Ht & _).
    specialize (Ht (given_Some t Hne)). simpl default in Ht. rewrite Hl in Ht.
    by apply in_tag_spec in Ht. }
  split; [|split].
  - by rewrite filter_query_tags, given_Some.
  - intros j l Hl. split; [|by apply Hm].
    unfold fexpr_holds. rewrite Hl. apply in_tag_spec.
  - intros limit items st r l Hrun Hr Hl.
    destruct (list_jobs_items _ _ _ _ _ _ _ _ Hrun Hr) as (j & _ & Hj & ->).
    rewrite normalize_job_other in Hl by done. by apply (Hm j l).
Qed.

Lemma tag_clause_semantics_witness :
  "python" <> EmptyString
  /\ (fexpr_holds plain_engine "tags" (FCond (CIn [VStr "python"])) doc_berlin = true
      <-> In "python" ["python"; "django"])
  /\ (fexpr_holds plain_engine "tags" (FCond (CIn [VStr "python"])) doc_closed = true
      <-> In "python" ["Python"; "python3"]).
Proof.
  split; [discriminate |].
  pose proof (tag_clause_semantics sample_db "python" None None ltac:(discriminate))
    as (_ & H & _).
  split.
  - exact (proj1 (H doc_berlin ["python"; "django"] eq_refl)).
  - exact (proj1 (H doc_closed ["Python"; "python3"] eq_refl)).
Defined.

(** The tag filter asks for the exact element; the keyword search over tags
    is looser. *)
Example tag_exact_keyword_loose :
  cond_holds plain_engine (CIn [VStr "python"]) (doc_closed !! "tags") = false
  /\ cond_holds plain_engine (CRegex "python" "i") (doc_closed !! "tags") = true.
Proof. split; reflexivity. Qed.

(** C7: a supplied [location] without operator characters puts a
    case-insensitive pattern under ["location"]; a job meets that clause
    exactly when its location contains the text, letter case ignored as the
    store folds it; a job matches the whole filter exactly when it meets
    that clause and the filter built without [location]; and the listing
    returns no other job. On ASCII text "contains, letter case ignored" is
    containment after lower-casing. *)
Theorem location_clause_semantics (fold : string -> string) (d : Database) (loc : string)
    (q tag : option string) :
  case_folding fold -> literal_engine fold (engine d) ->
  loc <> EmptyString -> no_metachar loc = true ->
  filter_query q (Some loc) tag !! "location" = Some (FCond (CRegex loc "i"))
  /\ (forall j : doc,
         (fexpr_holds (engine d) "location" (FCond (CRegex loc "i")) j = true
          <-> field_contains_ci fold loc (j !! "location"))
         /\ (matches (engine d) (filter_query q (Some loc) tag) j = true
             <-> field_contains_ci fold loc (j !! "location")
                 /\ matches (engine d) (filter_query q None tag) j = true))
  /\ (forall (limit : Z) (items : list doc) (st : option Database) (r : doc),
         list_jobs q (Some loc) tag limit (Some d) = (Return items, st) ->
         In r items -> field_contains_ci fold loc (r !! "location"))
  /\ (forall s : string, is_ascii loc = true -> is_ascii s = true ->
         (ci_substring fold loc s <->
          exists pre post : string, lower s = pre ++ lower loc ++ post)).
Proof.
  intros Hf He Hne Hl.
  assert (Hm : forall j : doc,
            matches (engine d) (filter_query q (Some loc) tag) j = true
            <-> field_contains_ci fold loc (j !! "location")
                /\ matches (engine d) (filter_query q None tag) j = true).
  { intros j. rewrite !filter_query_matches, given_Some by done. simpl.
    rewrite <- (regex_field_spec fold _ loc _ He Hl). intuition discriminate. }
  split; [|split; [|split]].
  - by rewrite filter_query_location, given_Some.
  - intros j. split; [apply (regex_field_spec fold _ loc _ He Hl) | apply Hm].
  - intros limit items st r Hrun Hr.
    destruct (list_jobs_items _ _ _ _ _ _ _ _ Hrun Hr) as (j & _ & Hj & ->).
    rewrite normalize_job_other by done. by apply Hm in Hj as [Hj _].
  - intros s Hl' Hs. by apply ci_substring_ascii.
Qed.

Lemma location_clause_semantics_witness :
  case_folding fold_latin /\ literal_engine fold_latin (engine latin_db)
  /\ "montréal" <> EmptyString /\ no_metachar "montréal" = true
  /\ (fexpr_holds latin_engine "location" (FCond (CRegex "montréal" "i")) doc_montreal = true
      <-> ci_substring fold_latin "montréal" "MONTRÉAL")
  /\ In (normalize_job doc_montreal)
        (items_of (list_jobs None (Some "montréal") None 50 (Some latin_db)))
  /\ field_contains_ci fold_latin "montréal" (normalize_job doc_montreal !! "location").
Proof.
  split; [apply fold_latin_case_folding |]. split; [apply latin_engine_literal |].
  split; [discriminate |]. split; [reflexivity |].
  pose proof (location_clause_semantics fold_latin latin_db "montréal" None None
                fold_latin_case_folding latin_engine_literal
                ltac:(discriminate) eq_refl) as (_ & H & Hlist & _).
  split; [exact (proj1 (H doc_montreal)) |].
  split; [exact (in_eq (normalize_job doc_montreal) []) |].
  exact (Hlist 50 [normalize_job doc_montreal] (Some latin_db) (normalize_job doc_montreal)
           eq_refl (in_eq (normalize_job doc_montreal) [])).
Defined.

(** ** The diagnostic endpoint *)

(** C8: in every storage state (not configured, configured, configured
    with a failing collection listing) and every environment,
    [test_database] returns its report, the answer is a 200, and the report
    carries the six descriptive fields. *)
Theorem test_database_always_200 (env : gmap string string) (st : option Database) :
  exists r : gmap string value,
    test_database env st = (Return r, st)
    /\ status_of (fst (test_database env st)) = 200
    /\ r !! "backend" = Some (VStr "✅ Running")
    /\ r !! "database" = Some (VStr (database_status st))
    /\ r !! "database_url"
       = Some (VStr (if env_set env "DATABASE_URL" then "✅ Set" else "❌ Not Set"))
    /\ r !! "database_name"
       = Some (VStr (if env_set env "DATABASE_NAME" then "✅ Set" else "❌ Not Set"))
    /\ r !! "connection_status"
       = Some (VStr (match st with Some _ => "Connected" | None => "Not Connected" end))
    /\ exists l, r !! "collections" = Some (VStrs l) /\ (length l <= 10)%nat.
Proof.
  unfold test_database, bind, try_except, db, ret, lift, list_collection_names,
    database_status.
  destruct st as [d|]; simpl.
  - destruct (listing_error d) as [msg|]; simpl.
    + eexists. split; [reflexivity |]. split; [reflexivity |].
      repeat split; try by simplify_map_eq.
      exists []. split; [by simplify_map_eq | simpl; lia].
    + eexists. split; [reflexivity |]. split; [reflexivity |].
      repeat split; try by simplify_map_eq.
      eexists. split; [by simplify_map_eq |]. rewrite length_take. lia.
  - eexists. split; [reflexivity |]. split; [reflexivity |].
    repeat split; try by simplify_map_eq.
    exists []. split; [by simplify_map_eq | simpl; lia].
Qed.

(** ** Normalisation of returned documents *)

Lemma stringify_id_lookup (j : doc) (v : value) :
  j !! "_id" = Some v -> stringify_id j = <["_id" := VStr (py_str v)]> j.
Proof. intros H. unfold stringify_id. by rewrite H. Qed.

Lemma stringify_id_idempotent (j : doc) :
  is_Some (j !! "_id") -> stringify_id (stringify_id j) = stringify_id j.
Proof.
  intros [v Hv]. rewrite (stringify_id_lookup j v Hv).
  rewrite (stringify_id_lookup _ (VStr (py_str v))) by apply lookup_insert_eq.
  simpl. apply insert_insert_eq.
Qed.

Lemma serialize_posted_at_done (j : doc) (t : datetime) :
  serialize_posted_at j !! "posted_at" <> Some (VDate t).
Proof.
  unfold serialize_posted_at.
  destruct (j !! "posted_at") as [v|] eqn:E; [|by rewrite E].
  destruct v; try (by rewrite E). by rewrite lookup_insert_eq.
Qed.

Lemma serialize_posted_at_idempotent (j : doc) :
  serialize_posted_at (serialize_posted_at j) = serialize_posted_at j.
Proof.
  pose proof (serialize_posted_at_done j) as H.
  unfold serialize_posted_at at 1.
  destruct (serialize_posted_at j !! "posted_at") as [v|]; [|done].
  destruct v; try done. by destruct (H t).
Qed.

Lemma normalize_job_id (j : doc) (v : value) :
  j !! "_id" = Some v -> normalize_job j !! "_id" = Some (VStr (py_str v)).
Proof.
  intros H. unfold normalize_job.
  rewrite serialize_posted_at_other by done.
  rewrite (stringify_id_lookup j v H). apply lookup_insert_eq.
Qed.

Lemma normalize_job_idempotent (j : doc) :
  is_Some (j !! "_id") -> normalize_job (normalize_job j) = normalize_job j.
Proof.
  intros [v Hv]. pose proof (normalize_job_id j v Hv) as Hid.
  unfold normalize_job at 1.
  rewrite (stringify_id_lookup _ _ Hid). simpl.
  rewrite (insert_id _ _ _ Hid).
  unfold normalize_job. apply serialize_posted_at_idempotent.
Qed.

(** Without an [_id] the rewriting is not idempotent: the first pass stores
    [None], the second the text ["None"]. *)
Example stringify_id_twice_without_id :
  stringify_id ∅ !! "_id" = Some VNone
  /\ stringify_id (stringify_id ∅) !! "_id" = Some (VStr "None").
Proof. split; reflexivity. Qed.

(** Each document an endpoint returns is the endpoint's rewriting of one
    stored document. *)
Lemma returned_docs_origin (d : Database) (ep : endpoint) (r : doc) :
  In r (returned_docs ep (Some d)) ->
  exists j, In j (collection d (collection_of ep))
            /\ (match ep with JobDetail _ => is_Some (j !! "_id") | _ => True end)
            /\ r = normalization_of ep j.
Proof.
  destruct ep as [q location tag limit | job_id | job_id limit | limit]; simpl.
  - rewrite list_jobs_run. destruct (filter_ok _ _); [|done].
    unfold items_of. simpl. intros Hin. apply in_map_iff in Hin as (j & <- & Hj).
    apply In_take, filter_In in Hj as [Hj _]. by exists j.
  - rewrite get_job_run. destruct (ObjectId job_id) as [oid|]; [|done].
    destruct (List.find _ _) as [j|] eqn:Hf; [|done].
    destruct (Nat.eqb (size j) 0); [done |].
    destruct (j !! "_id") as [v|] eqn:Hv; [|done].
    simpl. intros [<- | []]. exists j. apply find_some in Hf as [Hj _].
    split; [done |]. split; [by rewrite Hv |].
    unfold normalize_job. by rewrite (stringify_id_lookup j v Hv).
  - rewrite list_applications_run. destruct (filter_ok _ _); [|done].
    unfold items_of. simpl. intros Hin. apply in_map_iff in Hin as (j & <- & Hj).
    apply In_take, filter_In in Hj as [Hj _]. by exists j.
  - rewrite list_companies_run. unfold items_of. simpl.
    intros Hin. apply in_map_iff in Hin as (j & <- & Hj).
    apply In_take in Hj. by exists j.
Qed.

(** C3, as stated, fails: the applications list returns a stored creation
    time as a raw [datetime]. *)
Lemma applications_list_keeps_raw_timestamp :
  ~ (forall r, In r (returned_docs (ApplicationsList None 100) (Some stamped_db)) ->
               id_is_string r /\ timestamps_serialized r).
Proof.
  intros H. destruct (H (stringify_id doc_stamped)) as [_ Ht].
  - exact (in_eq (stringify_id doc_stamped) []).
  - apply (Ht "created_at" t0). reflexivity.
Qed.

(** C3, amended: when every stored document carries its [_id], each document
    an endpoint returns is the endpoint's rewriting applied once to a stored
    document; its [_id] is a string; the job list and the job detail leave no
    [datetime] under [posted_at]; every field the rewriting does not assign
    is returned as stored; and rewriting the returned document again changes
    nothing. *)
Theorem returned_documents_normalised (d : Database) (ep : endpoint) (r : doc) :
  ids_assigned d ->
  In r (returned_docs ep (Some d)) ->
  id_is_string r
  /\ (In "posted_at" (assigned_fields ep) -> forall t, r !! "posted_at" <> Some (VDate t))
  /\ normalization_of ep r = r
  /\ exists j, In j (collection d (collection_of ep))
               /\ r = normalization_of ep j
               /\ forall k, ~ In k (assigned_fields ep) -> r !! k = j !! k.
Proof.
  intros Hids Hr.
  destruct (returned_docs_origin d ep r Hr) as (j & Hj & _ & ->).
  destruct (Hids _ _ Hj) as [v Hv].
  destruct ep as [q location tag limit | job_id | job_id limit | limit]; simpl in *.
  - split; [exists (py_str v); by apply normalize_job_id |].
    split; [intros _ t; apply serialize_posted_at_done |].
    split; [apply normalize_job_idempotent; by exists v |].
    exists j. repeat split; [done |]. intros k Hk. apply normalize_job_other; intros ->; apply Hk; simpl; tauto.
  - split; [exists (py_str v); by apply normalize_job_id |].
    split; [intros _ t; apply serialize_posted_at_done |].
    split; [apply normalize_job_idempotent; by exists v |].
    exists j. repeat split; [done |]. intros k Hk. apply normalize_job_other; intros ->; apply Hk; simpl; tauto.
  - split; [exists (py_str v); rewrite (stringify_id_lookup j v Hv); apply lookup_insert_eq |].
    split; [intros [? | []]; discriminate |].
    split; [apply stringify_id_idempotent; by exists v |].
    exists j. repeat split; [done |]. intros k Hk. apply stringify_id_other; intros ->; apply Hk; simpl; tauto.
  - split; [exists (py_str v); rewrite (stringify_id_lookup j v Hv); apply lookup_insert_eq |].
    split; [intros [? | []]; discriminate |].
    split; [apply stringify_id_idempotent; by exists v |].
    exists j. repeat split; [done |]. intros k Hk. apply stringify_id_other; intros ->; apply Hk; simpl; tauto.
Qed.

Lemma sample_db_ids_assigned : ids_assigned sample_db.
Proof.
  intros c j. unfold collection, sample_db. simpl.
  rewrite lookup_singleton. case_decide; simpl; [|done].
  intros [<- | [<- | [<- | []]]]; by eexists.
Qed.

Lemma returned_documents_normalised_witness :
  ids_assigned sample_db
  /\ In (normalize_job doc_berlin) (returned_docs (JobDetail oid1) (Some sample_db))
  /\ id_is_string (normalize_job doc_berlin)
  /\ normalize_job doc_berlin !! "posted_at" = Some (VStr "2024-03-09T14:05:00")
  /\ normalize_job (normalize_job doc_berlin) = normalize_job doc_berlin.
Proof.
  split; [apply sample_db_ids_assigned |].
  assert (Hin : In (normalize_job doc_berlin)
                  (returned_docs (JobDetail oid1) (Some sample_db))).
  { exact (in_eq (normalize_job doc_berlin) []). }
  split; [exact Hin |].
  destruct (returned_documents_normalised sample_db (JobDetail oid1)
              (normalize_job doc_berlin) sample_db_ids_assigned Hin)
    as (Hid & _ & Hidem & _).
  split; [exact Hid |]. split; [reflexivity | exact Hidem].
Defined.

(** ** Identifiers *)

Lemma string_app_length (a b : string) :
  String.length (a ++ b) = (String.length a + String.length b)%nat.
Proof. induction a as [|c a IH]; simpl; [done | by rewrite IH]. Qed.

Lemma string_forallb_app (f : ascii -> bool) (a b : string) :
  string_forallb f (a ++ b) = string_forallb f a && string_forallb f b.
Proof. induction a as [|c a IH]; simpl; [done | by rewrite IH, andb_assoc]. Qed.

Lemma lower_app (a b : string) : lower (a ++ b) = lower a ++ lower b.
Proof. induction a as [|c a IH]; simpl; [done | by rewrite IH]. Qed.

Lemma lower_length (s : string) : String.length (lower s) = String.length s.
Proof. induction s as [|c s IH]; simpl; [done | by rewrite IH]. Qed.

Lemma ascii_lower_idempotent (c : ascii) : ascii_lower (ascii_lower c) = ascii_lower c.
Proof. destruct c as [[] [] [] [] [] [] [] []]; reflexivity. Qed.

Lemma ascii_lower_hex (c : ascii) : is_hex_digit (ascii_lower c) = is_hex_digit c.
Proof. destruct c as [[] [] [] [] [] [] [] []]; reflexivity. Qed.

Lemma lower_idempotent (s : string) : lower (lower s) = lower s.
Proof.
  induction s as [|c s IH]; simpl; [done |]. by rewrite ascii_lower_idempotent, IH.
Qed.

Lemma lower_hex (s : string) :
  string_forallb is_hex_digit (lower s) = string_forallb is_hex_digit s.
Proof. induction s as [|c s IH]; simpl; [done |]. by rewrite ascii_lower_hex, IH. Qed.

Lemma hex_char_canonical (n : N) :
  (n < 16)%N -> is_hex_digit (hex_char n) = true /\ ascii_lower (hex_char n) = hex_char n.
Proof.
  intros H. rewrite <- (N2Nat.id n).
  assert (Hm : (N.to_nat n < 16)%nat) by lia.
  generalize dependent (N.to_nat n). intros m Hm.
  do 16 (destruct m as [|m]; [by split |]). lia.
Qed.

Lemma hex_of_canonical (k : nat) (n : N) :
  String.length (hex_of k n) = k
  /\ string_forallb is_hex_digit (hex_of k n) = true
  /\ lower (hex_of k n) = hex_of k n.
Proof.
  revert n. induction k as [|k IH]; intros n; simpl; [done |].
  destruct (IH (n / 16)%N) as (Hl & Hh & Hc).
  destruct (hex_char_canonical (n mod 16)%N) as [Hd Hlow];
    [apply N.mod_upper_bound; lia |].
  rewrite string_app_length, string_forallb_app, lower_app, Hl, Hh, Hc. simpl.
  rewrite Hd, Hlow. repeat split. lia.
Qed.

(** The identifier an insert hands out parses, and parses to itself. *)
Lemma ObjectId_fresh_id (d : Database) : ObjectId (fresh_id d) = Return (fresh_id d).
Proof.
  unfold ObjectId, fresh_id.
  destruct (hex_of_canonical 24 (next_id d)) as (Hl & Hh & Hc).
  by rewrite Hl, Hh, Hc.
Qed.

Lemma ObjectId_Return (s oid : string) : ObjectId s = Return oid -> oid = lower s.
Proof. unfold ObjectId. destruct (_ && _); [by intros [= <-] | discriminate]. Qed.

(** Parsing does not tell the letter case of the digits apart. *)
Lemma ObjectId_lower (s : string) :
  match ObjectId s with
  | Return oid => ObjectId (lower s) = Return oid
  | Raise _ => exists x, ObjectId (lower s) = Raise x
  end.
Proof.
  unfold ObjectId. rewrite lower_length, lower_hex, lower_idempotent.
  destruct (_ && _); eauto.
Qed.

(** ** Stored documents *)

Lemma collection_after_insert (d : Database) (c : string) (data : doc) :
  exists d',
    create_document c data (Some d) = (Return (fresh_id d), Some d')
    /\ collection d' c = (collection d c ++ [stored (fresh_id d) data])%list
    /\ (forall c', c' <> c -> collection d' c' = collection d c')
    /\ engine d' = engine d.
Proof.
  eexists. split; [reflexivity |]. unfold collection. simpl. split; [|split; [|done]].
  - by rewrite lookup_insert_eq.
  - intros c' Hc. by rewrite lookup_insert_ne.
Qed.

Lemma size_nonzero (j : doc) (k : string) (v : value) :
  j !! k = Some v -> Nat.eqb (size j) 0 = false.
Proof.
  intros H. apply Nat.eqb_neq. intros Hs. apply map_size_empty_iff in Hs.
  subst. by rewrite lookup_empty in H.
Qed.

Lemma find_is_Some {A} (f : A -> bool) (l : list A) (x : A) :
  In x l -> f x = true -> exists y, List.find f l = Some y.
Proof.
  intros Hx Hf. destruct (List.find f l) as [y|] eqn:E; [by exists y |].
  by rewrite (find_none _ _ E x Hx) in Hf.
Qed.

Lemma find_app_last {A} (f : A -> bool) (l : list A) (x : A) :
  (forall y, In y l -> f y = false) -> f x = true ->
  List.find f (l ++ [x])%list = Some x.
Proof.
  intros Hl Hx. induction l as [|a l IH]; simpl.
  - by rewrite Hx.
  - rewrite (Hl a) by (by left). apply IH. intros y Hy. apply Hl. by right.
Qed.

Lemma job_data_run (now : datetime) (job : Job.t) (d : Database) :
  create_job now job (Some d) = create_document "job" (job_data now job) (Some d).
Proof.
  unfold create_job, bind, db, ret, job_data. simpl.
  destruct (Job.posted_at job) as [t|] eqn:E; simpl.
  - assert (Hp : Job.model_dump job !! "posted_at" = Some (VDate t)).
    { unfold Job.model_dump. rewrite E. apply lookup_insert_eq. }
    rewrite Hp. simpl. by rewrite (insert_id _ _ _ Hp).
  - assert (Hp : Job.model_dump job !! "posted_at" = Some VNone).
    { unfold Job.model_dump. rewrite E. apply lookup_insert_eq. }
    by rewrite Hp.
Qed.

Lemma stored_id (oid : string) (data : doc) : stored oid data !! "_id" = Some (VOid oid).
Proof. apply lookup_insert_eq. Qed.

Lemma stored_other (oid : string) (data : doc) (k : string) :
  k <> "_id" -> stored oid data !! k = data !! k.
Proof. intros H. unfold stored. by rewrite lookup_insert_ne. Qed.

Lemma serialize_posted_at_date (j : doc) (t : datetime) :
  j !! "posted_at" = Some (VDate t) ->
  serialize_posted_at j = <["posted_at" := VStr (isoformat t)]> j.
Proof. intros H. unfold serialize_posted_at. by rewrite H. Qed.

Lemma found_by_id (e : regex_engine) (oid : string) (l : list doc) :
  falsy_doc (List.find (matches e (by_id oid)) l) = false <->
  exists j, In j l /\ j !! "_id" = Some (VOid oid).
Proof.
  split.
  - destruct (List.find _ l) as [j|] eqn:E; [|discriminate]. intros _.
    apply find_some in E as [Hj Hm]. exists j. split; [done | by apply matches_by_id in Hm].
  - intros (j & Hj & Hid).
    destruct (find_is_Some (matches e (by_id oid)) l j Hj) as [y Hy];
      [by apply (proj2 (matches_by_id _ _ _)) |].
    rewrite Hy. simpl. apply find_some in Hy as [_ Hm].
    apply matches_by_id in Hm. by apply (size_nonzero y "_id" (VOid oid)).
Qed.

(** ** Creating and fetching jobs *)

Lemma stored_job_fields (oid : string) (now : datetime) (job : Job.t) :
  stored oid (job_data now job) !! "_id" = Some (VOid oid)
  /\ stored oid (job_data now job) !! "posted_at"
     = Some (VDate (default now (Job.posted_at job)))
  /\ forall k, k <> "_id" -> k <> "posted_at" ->
       stored oid (job_data now job) !! k = Job.model_dump job !! k.
Proof.
  split; [apply stored_id |]. split.
  - rewrite stored_other by done. apply lookup_insert_eq.
  - intros k H1 H2. rewrite stored_other by done. unfold job_data.
    by rewrite lookup_insert_ne.
Qed.

(** What a job just stored looks like once a read has rewritten it. *)
Lemma normalized_job_fields (oid : string) (now : datetime) (job : Job.t) :
  normalize_job (stored oid (job_data now job)) !! "_id" = Some (VStr oid)
  /\ normalize_job (stored oid (job_data now job)) !! "posted_at"
     = Some (VStr (isoformat (default now (Job.posted_at job))))
  /\ forall k, k <> "_id" -> k <> "posted_at" ->
       normalize_job (stored oid (job_data now job)) !! k = Job.model_dump job !! k.
Proof.
  destruct (stored_job_fields oid now job) as (Hid & Hp & Hk).
  split; [apply (normalize_job_id _ _ Hid) |]. split.
  - unfold normalize_job.
    assert (Hp' : stringify_id (stored oid (job_data now job)) !! "posted_at"
                  = Some (VDate (default now (Job.posted_at job))))
      by (by rewrite stringify_id_other).
    rewrite (serialize_posted_at_date _ _ Hp'). apply lookup_insert_eq.
  - intros k H1 H2. rewrite normalize_job_other by done. by apply Hk.
Qed.

(** X1: what [create_job] hands to the store is the dump of the job with
    [posted_at] set: to the submitted posting time when there is one, to the
    current time otherwise; every other field goes as dumped. *)
Theorem create_job_sets_posted_at (d : Database) (now : datetime) (job : Job.t) :
  exists data : doc,
    create_job now job (Some d) = create_document "job" data (Some d)
    /\ data !! "posted_at" = Some (VDate (default now (Job.posted_at job)))
    /\ forall k, k <> "posted_at" -> data !! k = Job.model_dump job !! k.
Proof.
  exists (job_data now job). split; [apply job_data_run |]. split.
  - apply lookup_insert_eq.
  - intros k Hk. unfold job_data. by rewrite lookup_insert_ne.
Qed.

(** X2: a job just created, its salaries within the store's integers, can
    be fetched by the identifier [create_job] returned, provided no stored
    job already carries it: the detail has that identifier as a string under
    [_id], a text under [posted_at], and every other field as submitted. *)
Theorem create_job_then_get_job (d : Database) (now : datetime) (job : Job.t) :
  id_unused d "job" (fresh_id d) ->
  salaries_storable job ->
  exists r,
    get_job (fresh_id d) (db_after (create_job now job (Some d)))
    = (Return r, db_after (create_job now job (Some d)))
    /\ r !! "_id" = Some (VStr (fresh_id d))
    /\ (exists s, r !! "posted_at" = Some (VStr s))
    /\ forall k, k <> "_id" -> k <> "posted_at" -> r !! k = Job.model_dump job !! k.
Proof.
  intros Hfree _.
  destruct (collection_after_insert d "job" (job_data now job))
    as (d' & Hrun & Hjob & _).
  destruct (stored_job_fields (fresh_id d) now job) as (Hid & _ & _).
  destruct (normalized_job_fields (fresh_id d) now job) as (Hnid & Hnp & Hnk).
  exists (normalize_job (stored (fresh_id d) (job_data now job))).
  rewrite job_data_run, Hrun. unfold db_after. simpl.
  rewrite get_job_run, ObjectId_fresh_id, Hjob.
  rewrite find_app_last.
  - rewrite (size_nonzero _ _ _ Hid), Hid. simpl.
    split; [|split; [done | split; [by eexists | done]]].
    unfold normalize_job. by rewrite (stringify_id_lookup _ _ Hid).
  - intros y Hy. apply not_true_is_false. rewrite matches_by_id. by apply Hfree.
  - by apply (proj2 (matches_by_id _ _ _)).
Qed.

Lemma sample_db_fresh_unused : id_unused sample_db "job" (fresh_id sample_db).
Proof. intros j [<- | [<- | [<- | []]]]; vm_compute; discriminate. Qed.

Lemma job_berlin_storable : salaries_storable job_berlin.
Proof. intros z [[= <-] | [=]]. lia. Qed.

Lemma create_job_then_get_job_witness :
  id_unused sample_db "job" (fresh_id sample_db)
  /\ salaries_storable job_berlin
  /\ exists r,
       get_job "000000000000000000000010"
         (db_after (create_job t0 job_berlin (Some sample_db)))
       = (Return r, db_after (create_job t0 job_berlin (Some sample_db)))
       /\ r !! "_id" = Some (VStr "000000000000000000000010")
       /\ r !! "salary_min" = Some (VInt 50000).
Proof.
  split; [apply sample_db_fresh_unused |]. split; [apply job_berlin_storable |].
  destruct (create_job_then_get_job sample_db t0 job_berlin sample_db_fresh_unused
              job_berlin_storable)
    as (r & Hrun & Hid & _ & Hk).
  exists r. split; [exact Hrun |]. split; [exact Hid |].
  rewrite (Hk "salary_min") by done. reflexivity.
Defined.

(** X3: on configured storage [get_job] returns exactly when the
    identifier parses and some stored job carries it, open or closed; what
    it returns is a stored job with that identifier, rewritten once, with the
    identifier in lower-case hexadecimal text under [_id]. *)
Theorem get_job_returns_iff_assigned (d : Database) (job_id : string) :
  ((exists r st, get_job job_id (Some d) = (Return r, st)) <->
   ObjectId job_id = Return (lower job_id)
   /\ exists j, In j (collection d "job") /\ j !! "_id" = Some (VOid (lower job_id)))
  /\ forall r st,
       get_job job_id (Some d) = (Return r, st) ->
       st = Some d
       /\ r !! "_id" = Some (VStr (lower job_id))
       /\ exists j, In j (collection d "job")
                    /\ j !! "_id" = Some (VOid (lower job_id))
                    /\ r = normalize_job j.
Proof.
  assert (Hret : forall r st,
       get_job job_id (Some d) = (Return r, st) ->
       ObjectId job_id = Return (lower job_id)
       /\ st = Some d
       /\ exists j, In j (collection d "job")
                    /\ j !! "_id" = Some (VOid (lower job_id))
                    /\ r = normalize_job j).
  { intros r st. rewrite get_job_run.
    destruct (ObjectId job_id) as [oid|] eqn:Ho; [|discriminate].
    apply ObjectId_Return in Ho as ->.
    destruct (List.find _ _) as [j|] eqn:Hf; [|discriminate].
    destruct (Nat.eqb (size j) 0); [discriminate |].
    destruct (j !! "_id") as [v|] eqn:Hv; [|discriminate].
    intros [= <- <-]. apply find_some in Hf as [Hj Hm].
    apply matches_by_id in Hm. rewrite Hv in Hm. injection Hm as ->.
    split; [done |]. split; [done |]. exists j. split; [done |]. split; [done |].
    unfold normalize_job. by rewrite (stringify_id_lookup j _ Hv). }
  split.
  - split.
    + intros (r & st & Hrun). destruct (Hret r st Hrun) as (Ho & _ & j & Hj & Hid & _).
      split; [done |]. by exists j.
    + intros (Ho & j & Hj & Hid). rewrite get_job_run, Ho.
      destruct (find_is_Some (matches (engine d) (by_id (lower job_id)))
                  (collection d "job") j Hj) as [y Hy]; [by apply (proj2 (matches_by_id _ _ _)) |].
      rewrite Hy. apply find_some in Hy as [_ Hm]. apply matches_by_id in Hm.
      rewrite (size_nonzero _ _ _ Hm), Hm. eauto.
  - intros r st Hrun. destruct (Hret r st Hrun) as (_ & -> & j & Hj & Hid & ->).
    split; [done |]. split; [|by exists j].
    by rewrite (normalize_job_id j _ Hid).
Qed.

(** X4: [get_job] does not tell upper-case from lower-case hexadecimal
    digits in the identifier. *)
Theorem get_job_ignores_letter_case (job_id : string) (st : option Database) :
  get_job (lower job_id) st = get_job job_id st.
Proof.
  destruct st as [d|]; [|reflexivity].
  rewrite !get_job_run. pose proof (ObjectId_lower job_id) as H.
  destruct (ObjectId job_id) as [oid|x].
  - by rewrite H.
  - destruct H as [y ->]. reflexivity.
Qed.

(** X5: every document of the job listing can be fetched through the
    detail endpoint by the text under its [_id], and the detail is the same
    document, when stored jobs carry canonical identifiers, no two the
    same. *)
Theorem listed_job_is_fetchable (d : Database) (q location tag : option string)
    (limit : Z) (items : list doc) (st : option Database) (r : doc) :
  job_ids_canonical d -> job_ids_unique d ->
  list_jobs q location tag limit (Some d) = (Return items, st) ->
  In r items ->
  exists s, r !! "_id" = Some (VStr s) /\ get_job s (Some d) = (Return r, Some d).
Proof.
  intros Hcan Huni Hrun Hr.
  destruct (list_jobs_items _ _ _ _ _ _ _ _ Hrun Hr) as (j & Hj & _ & ->).
  destruct (Hcan j Hj) as (h & Hid & Hparse).
  exists h. split; [by rewrite (normalize_job_id j _ Hid) |].
  rewrite get_job_run, Hparse.
  destruct (find_is_Some (matches (engine d) (by_id h)) (collection d "job") j Hj)
    as [y Hy]; [by apply (proj2 (matches_by_id _ _ _)) |].
  rewrite Hy. apply find_some in Hy as [Hyin Hm]. apply matches_by_id in Hm.
  assert (y = j) as -> by (apply Huni; congruence).
  rewrite (size_nonzero _ _ _ Hid), Hid.
  unfold normalize_job. by rewrite (stringify_id_lookup j _ Hid).
Qed.

Lemma sample_db_ids_canonical : job_ids_canonical sample_db.
Proof.
  intros j [<- | [<- | [<- | []]]]; eexists; split;
    (apply stored_id || reflexivity).
Qed.

Lemma sample_db_ids_unique : job_ids_unique sample_db.
Proof.
  intros j1 j2 [<- | [<- | [<- | []]]] [<- | [<- | [<- | []]]]; try done;
    unfold doc_berlin, doc_closed, doc_design; rewrite !stored_id; discriminate.
Qed.

Lemma listed_job_is_fetchable_witness :
  job_ids_canonical sample_db /\ job_ids_unique sample_db
  /\ exists s, normalize_job doc_design !! "_id" = Some (VStr s)
               /\ get_job s (Some sample_db) = (Return (normalize_job doc_design), Some sample_db).
Proof.
  split; [apply sample_db_ids_canonical |]. split; [apply sample_db_ids_unique |].
  apply (listed_job_is_fetchable sample_db None (Some "remote") None 50
           [normalize_job doc_design] (Some sample_db) (normalize_job doc_design)
           sample_db_ids_canonical sample_db_ids_unique eq_refl
           (in_eq (normalize_job doc_design) [])).
Defined.

(** ** Applications *)

(** X6: on configured storage [submit_application] is accepted exactly
    when [job_id] parses and some stored job carries it; nothing else about
    the job or the application is looked at. An accepted application is
    appended to the application collection as submitted, under the returned
    identifier, and no other collection changes. *)
Theorem submit_application_accepts_iff_job_exists (d : Database) (apply : Application.t) :
  ((exists id st, submit_application apply (Some d) = (Return id, st)) <->
   ObjectId (Application.job_id apply) = Return (lower (Application.job_id apply))
   /\ exists j, In j (collection d "job")
                /\ j !! "_id" = Some (VOid (lower (Application.job_id apply))))
  /\ forall id st,
       submit_application apply (Some d) = (Return id, st) ->
       id = fresh_id d
       /\ exists d', st = Some d'
            /\ collection d' "application"
               = (collection d "application"
                  ++ [stored (fresh_id d) (Application.model_dump apply)])%list
            /\ forall c, c <> "application" -> collection d' c = collection d c.
Proof.
  destruct (collection_after_insert d "application" (Application.model_dump apply))
    as (d' & Hins & Happ & Hother & _).
  rewrite submit_application_run. split.
  - destruct (ObjectId _) as [oid|x] eqn:Ho.
    + apply ObjectId_Return in Ho as ->.
      destruct (falsy_doc _) eqn:Hf.
      * split; [by intros (? & ? & ?) |].
        intros (_ & Hj). apply (found_by_id (engine d)) in Hj. congruence.
      * split; [|rewrite Hins; eauto].
        intros _. split; [done |]. by apply found_by_id in Hf.
    + split; [by intros (? & ? & ?) | by intros [? _]].
  - intros id st. destruct (ObjectId _); [|discriminate].
    destruct (falsy_doc _); [discriminate |].
    rewrite Hins. intros [= <- <-]. split; [done |]. by exists d'.
Qed.

Lemma applications_filter_matches (e : regex_engine) (s : string) (j : doc) :
  s <> EmptyString ->
  matches e (applications_filter (Some s)) j = eq_holds (VStr s) (j !! "job_id").
Proof.
  intros Hs. unfold applications_filter. rewrite given_Some by done.
  unfold matches. rewrite insert_empty, map_to_list_singleton. simpl.
  apply andb_true_r.
Qed.

Lemma applications_filter_ok (e : regex_engine) (job_id : option string) :
  filter_ok e (applications_filter job_id) = true.
Proof.
  unfold applications_filter, filter_ok. destruct (given job_id).
  - by rewrite insert_empty, map_to_list_singleton.
  - by rewrite map_to_list_empty.
Qed.

(** X7: on configured storage [list_applications] always returns, whatever
    [job_id] is (it is never parsed as an identifier). With a non-empty
    [job_id] an application whose [job_id] is text is selected exactly when
    that text equals the parameter, and no returned application has another
    text there. *)
Theorem list_applications_by_job (d : Database) (s : string) (limit : Z) :
  s <> EmptyString ->
  (forall job_id, exists items,
      list_applications job_id limit (Some d) = (Return items, Some d))
  /\ (forall (j : doc) (t : string), j !! "job_id" = Some (VStr t) ->
        (matches (engine d) (applications_filter (Some s)) j = true <-> t = s))
  /\ (forall (r : doc) (t : string),
        In r (items_of (list_applications (Some s) limit (Some d))) ->
        r !! "job_id" = Some (VStr t) -> t = s).
Proof.
  intros Hs.
  assert (Hm : forall (j : doc) (t : string), j !! "job_id" = Some (VStr t) ->
            (matches (engine d) (applications_filter (Some s)) j = true <-> t = s)).
  { intros j t Ht. rewrite applications_filter_matches, Ht by done. simpl.
    unfold value_eqb. rewrite bool_decide_eq_true. split; congruence. }
  split; [|split; [exact Hm |]].
  - intros job_id. rewrite list_applications_run, applications_filter_ok. eauto.
  - intros r t. rewrite list_applications_run, applications_filter_ok.
    unfold items_of. simpl. intros Hin Ht.
    apply in_map_iff in Hin as (j & <- & Hj).
    apply In_take, filter_In in Hj as [_ Hj].
    rewrite stringify_id_other in Ht by done. by apply (Hm j t).
Qed.

Lemma list_applications_by_job_witness :
  oid_free <> EmptyString
  /\ (matches plain_engine (applications_filter (Some oid_free)) doc_stamped = true
      <-> oid_free = oid_free).
Proof.
  split; [discriminate |].
  destruct (list_applications_by_job stamped_db oid_free 100 ltac:(discriminate))
    as (_ & H & _).
  exact (H doc_stamped oid_free eq_refl).
Defined.

(** ** What reads and writes do to storage *)

(** X8: the root message, the three listings, the job detail and the
    diagnostic never change storage, whether they return or raise. *)
Theorem reads_leave_storage_unchanged (st : option Database)
    (q location tag job_id : option string) (limit : Z) (id : string)
    (env : gmap string string) :
  db_after (read_root st) = st
  /\ db_after (list_jobs q location tag limit st) = st
  /\ db_after (get_job id st) = st
  /\ db_after (list_applications job_id limit st) = st
  /\ db_after (list_companies limit st) = st
  /\ db_after (test_database env st) = st.
Proof.
  unfold db_after. destruct st as [d|]; [|by repeat split].
  split; [done |]. split; [|split; [|split; [|split]]].
  - rewrite list_jobs_run. by destruct (filter_ok _ _).
  - rewrite get_job_run. destruct (ObjectId id); [|done].
    destruct (List.find _ _) as [j|]; [|done].
    destruct (Nat.eqb (size j) 0); [done |]. by destruct (j !! "_id").
  - rewrite list_applications_run. by destruct (filter_ok _ _).
  - by rewrite list_companies_run.
  - unfold test_database, bind, try_except, db, ret, lift, list_collection_names.
    simpl. by destruct (listing_error d).
Qed.

Lemma create_company_run (company : Company.t) (d : Database) :
  create_company company (Some d)
  = create_document "company" (Company.model_dump company) (Some d).
Proof. reflexivity. Qed.

Lemma ids_assigned_after_insert (d d' : Database) (c : string) (data : doc) (r : result string) :
  ids_assigned d ->
  create_document c data (Some d) = (r, Some d') ->
  ids_assigned d'.
Proof.
  intros Hids Hrun.
  destruct (collection_after_insert d c data) as (d2 & Hins & Hc & Hother & _).
  rewrite Hins in Hrun. injection Hrun as _ <-.
  intros c' j Hj. destruct (decide (c' = c)) as [-> | Hne].
  - rewrite Hc in Hj. apply in_app_or in Hj as [Hj | [<- | []]].
    + by apply (Hids c).
    + rewrite stored_id. by eexists.
  - rewrite (Hother c' Hne) in Hj. by apply (Hids c').
Qed.

(** X9: if every stored document carries an [_id], so does every stored
    document after [create_job], [submit_application] or [create_company],
    whether the handler succeeded or failed. *)
Theorem writes_keep_ids_assigned (d d' : Database) :
  ids_assigned d ->
  (forall now job r, create_job now job (Some d) = (r, Some d') -> ids_assigned d')
  /\ (forall apply r, submit_application apply (Some d) = (r, Some d') -> ids_assigned d')
  /\ (forall company r, create_company company (Some d) = (r, Some d') -> ids_assigned d').
Proof.
  intros Hids. split; [|split].
  - intros now job r. rewrite job_data_run. by apply ids_assigned_after_insert.
  - intros apply r. rewrite submit_application_run.
    destruct (ObjectId _); [|by intros [= _ <-]].
    destruct (falsy_doc _); [by intros [= _ <-] |].
    by apply ids_assigned_after_insert.
  - intros company r. rewrite create_company_run. by apply ids_assigned_after_insert.
Qed.

Lemma writes_keep_ids_assigned_witness :
  ids_assigned sample_db /\ ids_assigned sample_db_grown.
Proof.
  split; [apply sample_db_ids_assigned |].
  exact (proj1 (writes_keep_ids_assigned sample_db sample_db_grown sample_db_ids_assigned)
           t0 job_design (Return (fresh_id sample_db)) eq_refl).
Defined.

(** ** A write followed by a listing *)

Lemma take_all {A} (limit : Z) (l k : list A) :
  Z.of_nat (length l) < limit -> (length k <= length l)%nat ->
  take (Z.to_nat limit) k = k.
Proof. intros H1 H2. apply take_ge. lia. Qed.

Lemma no_filter_matches (e : regex_engine) (j : doc) :
  matches e (filter_query None None None) j = true <-> j !! "is_active" = Some (VBool true).
Proof. rewrite filter_query_matches. simpl. intuition discriminate. Qed.

Lemma no_filter_ok (e : regex_engine) : filter_ok e (filter_query None None None) = true.
Proof.
  unfold filter_ok. change (filter_query None None None)
    with ({["is_active" := FCond (CEq (VBool true))]} : filter).
  by rewrite map_to_list_singleton.
Qed.

Lemma job_data_is_active (oid : string) (now : datetime) (job : Job.t) :
  stored oid (job_data now job) !! "is_active" = Some (VBool (Job.is_active job)).
Proof.
  rewrite stored_other by done. unfold job_data, Job.model_dump.
  rewrite !lookup_insert_ne by done. apply lookup_insert_eq.
Qed.

(** X10: when [limit] exceeds the number of stored jobs and the job's
    salaries are within the store's integers, the unfiltered listing after
    [create_job] is the listing before it, followed by the new job if it was
    posted as active, and unchanged if it was posted as closed. The new
    entry has the returned identifier as a string under [_id], a text under
    [posted_at], and every other field as submitted. *)
Theorem created_job_listed_iff_active (d : Database) (now : datetime) (job : Job.t)
    (limit : Z) :
  Z.of_nat (length (collection d "job")) < limit ->
  salaries_storable job ->
  exists r,
    items_of (list_jobs None None None limit (db_after (create_job now job (Some d))))
    = (items_of (list_jobs None None None limit (Some d))
       ++ (if Job.is_active job then [r] else []))%list
    /\ r !! "_id" = Some (VStr (fresh_id d))
    /\ (exists s, r !! "posted_at" = Some (VStr s))
    /\ forall k, k <> "_id" -> k <> "posted_at" -> r !! k = Job.model_dump job !! k.
Proof.
  intros Hlimit _.
  destruct (collection_after_insert d "job" (job_data now job))
    as (d' & Hrun & Hjob & _ & He).
  destruct (normalized_job_fields (fresh_id d) now job) as (Hnid & Hnp & Hnk).
  exists (normalize_job (stored (fresh_id d) (job_data now job))).
  split; [|split; [done | split; [by eexists | done]]].
  rewrite job_data_run, Hrun. unfold db_after. simpl.
  rewrite !list_jobs_run, !no_filter_ok, Hjob, He. unfold items_of. simpl.
  rewrite List.filter_app.
  pose proof (List.filter_length_le (matches (engine d) (filter_query None None None))
                (collection d "job")) as Hle.
  rewrite (take_all limit (collection d "job") (List.filter _ (collection d "job")))
    by done.
  pose proof (no_filter_matches (engine d) (stored (fresh_id d) (job_data now job))) as Hm.
  rewrite job_data_is_active in Hm. simpl.
  destruct (Job.is_active job).
  - rewrite (proj2 Hm eq_refl). rewrite take_ge, map_app; [done |].
    rewrite length_app. simpl. lia.
  - destruct (matches _ _ _); [by discriminate (proj1 Hm eq_refl) |].
    rewrite app_nil_r, take_ge by lia. by rewrite app_nil_r.
Qed.

Lemma created_job_listed_iff_active_witness :
  Z.of_nat (length (collection sample_db "job")) < 50
  /\ salaries_storable job_berlin
  /\ exists r,
       items_of (list_jobs None None None 50
                   (db_after (create_job t0 job_berlin (Some sample_db))))
       = (items_of (list_jobs None None None 50 (Some sample_db)) ++ [r])%list
       /\ r !! "_id" = Some (VStr (fresh_id sample_db))
       /\ r !! "title" = Some (VStr "Backend Engineer").
Proof.
  split; [reflexivity |]. split; [apply job_berlin_storable |].
  destruct (created_job_listed_iff_active sample_db t0 job_berlin 50 eq_refl
              job_berlin_storable)
    as (r & Hrun & Hid & _ & Hk).
  exists r. split; [exact Hrun |]. split; [exact Hid |].
  rewrite (Hk "title") by done. reflexivity.
Defined.

(** X11: when [limit] exceeds the number of stored companies, the company
    listing after [create_company] is the listing before it followed by the
    new company, whose [_id] is the identifier [create_company] returned, as
    text, and whose other fields are as submitted. *)
Theorem created_company_listed (d : Database) (company : Company.t) (limit : Z) :
  Z.of_nat (length (collection d "company")) < limit ->
  exists r,
    fst (create_company company (Some d)) = Return (fresh_id d)
    /\ items_of (list_companies limit (db_after (create_company company (Some d))))
       = (items_of (list_companies limit (Some d)) ++ [r])%list
    /\ r !! "_id" = Some (VStr (fresh_id d))
    /\ forall k, k <> "_id" -> r !! k = Company.model_dump company !! k.
Proof.
  intros Hlimit.
  destruct (collection_after_insert d "company" (Company.model_dump company))
    as (d' & Hrun & Hc & _).
  exists (stringify_id (stored (fresh_id d) (Company.model_dump company))).
  rewrite create_company_run, Hrun. unfold db_after. simpl.
  rewrite !list_companies_run, Hc. unfold items_of. simpl.
  split; [done |]. split; [|split].
  - rewrite (take_all limit (collection d "company") (collection d "company")) by done.
    rewrite take_ge, map_app; [done |]. rewrite length_app. simpl. lia.
  - rewrite (stringify_id_lookup _ _ (stored_id _ _)). apply lookup_insert_eq.
  - intros k Hk. by rewrite stringify_id_other, stored_other.
Qed.

Lemma created_company_listed_witness :
  Z.of_nat (length (collection sample_db "company")) < 10
  /\ exists r,
       fst (create_company company_acme (Some sample_db)) = Return (fresh_id sample_db)
       /\ items_of (list_companies 10 (db_after (create_company company_acme (Some sample_db))))
          = (items_of (list_companies 10 (Some sample_db)) ++ [r])%list
       /\ r !! "_id" = Some (VStr (fresh_id sample_db))
       /\ forall k, k <> "_id" -> r !! k = Company.model_dump company_acme !! k.
Proof.
  split; [reflexivity |].
  exact (created_company_listed sample_db company_acme 10 eq_refl).
Defined.
